(** * react-todo-supa-auth: the todos table, its row-level policies and the
      Todos page controller

    The development has these layers, each translated from the source:

    - [JS]: the few JavaScript primitives the page uses (UTF-16 strings,
      [String.prototype.trim], truthiness of a string);
    - [Pg]: the SQL migration (table [public.todos], its four row-level
      security policies, the [handle_updated_at] trigger) with the statement
      semantics PostgreSQL gives them;
    - [Page]: the handlers of [src/pages/Todos.tsx] ([fetchTodos], [addTodo],
      [toggleTodo], [deleteTodo]) as programs over the React state, written
      against the interface of the Supabase client;
    - [Service]: that interface implemented by the table behind its REST
      front, with a network that may fail;
    - [UI]: the events of the rendered page, each run by the handler of the
      current render.

    Statements about the page alone hold for any service; statements about
    the store hold for any filter and body, not only those the page sends.
    The theorems come last. *)

From Stdlib Require Import ZArith NArith List Bool String Ascii Lia.
From stdpp Require Import base tactics option list numbers strings.
From Stdlib Require Import Sorted Permutation.
Import ListNotations.

Local Open Scope Z_scope.

(* ===================================================================== *)
(** ** JavaScript primitives *)
(* ===================================================================== *)

Module JS.

(** A JavaScript string is a sequence of UTF-16 code units. *)
Definition jsstring := list N.

(** Code units of an ASCII literal. *)
Definition lit (s : string) : jsstring :=
  List.map N_of_ascii (list_ascii_of_string s).

(** ECMAScript [WhiteSpace] and [LineTerminator] code points, the ones
    [trim] strips; all of them are in the basic plane. *)
Definition isWhiteSpace (c : N) : bool :=
  ((c =? 0x09) || (c =? 0x0A) || (c =? 0x0B) || (c =? 0x0C) || (c =? 0x0D)
   || (c =? 0x20) || (c =? 0xA0) || (c =? 0x1680)
   || ((0x2000 <=? c) && (c <=? 0x200A))
   || (c =? 0x2028) || (c =? 0x2029) || (c =? 0x202F) || (c =? 0x205F)
   || (c =? 0x3000) || (c =? 0xFEFF))%N.

Fixpoint trimStart (s : jsstring) : jsstring :=
  match s with
  | [] => []
  | c :: s' => if isWhiteSpace c then trimStart s' else s
  end.

Definition trimEnd (s : jsstring) : jsstring :=
  rev (trimStart (rev s)).

(** [s.trim()] *)
Definition trim (s : jsstring) : jsstring := trimEnd (trimStart s).

(** Truthiness of a string: only the empty string is falsy. *)
Definition truthy (s : jsstring) : bool :=
  match s with [] => false | _ :: _ => true end.

End JS.

Import JS.

(* ===================================================================== *)
(** ** The todos table: columns *)
(* ===================================================================== *)

(** UUIDs travel as their canonical ASCII text. *)
Definition uuid := string.

(** [TIMESTAMP WITH TIME ZONE]: microseconds since the epoch. The page never
    inspects a timestamp except to print it. *)
Definition timestamp := Z.

(** A row of [public.todos] that satisfies its NOT NULL constraints; also the
    [Todo] interface of the page (same seven columns; [description] is the
    only nullable one). *)
Record Todo : Type := mkTodo {
  id : uuid;
  title : jsstring;
  description : option jsstring;
  completed : bool;
  created_at : timestamp;
  updated_at : timestamp;
  user_id : uuid
}.

(* ===================================================================== *)
(** ** PostgreSQL: schema, policies, trigger, statements *)
(* ===================================================================== *)

Module Pg.

(** What a request body says about one column: the key is missing, it is
    JSON [null], or it carries a value. *)
Inductive Cell (A : Type) : Type :=
| Omitted
| Null
| Value (a : A).
Arguments Omitted {A}.
Arguments Null {A}.
Arguments Value {A} a.

(** Body of an INSERT or an UPDATE: any subset of the seven columns. *)
Record Body : Type := mkBody {
  b_id : Cell uuid;
  b_user_id : Cell uuid;
  b_title : Cell jsstring;
  b_description : Cell jsstring;
  b_completed : Cell bool;
  b_created_at : Cell timestamp;
  b_updated_at : Cell timestamp
}.

(** A candidate row before the constraints are checked: every column may
    still be NULL. *)
Record Tuple : Type := mkTuple {
  t_id : option uuid;
  t_user_id : option uuid;
  t_title : option jsstring;
  t_description : option jsstring;
  t_completed : option bool;
  t_created_at : option timestamp;
  t_updated_at : option timestamp
}.

(** Errors a statement can end with (their SQLSTATE in the comment). *)
Inductive PgError : Type :=
| rls_violation           (* 42501: new row violates row-level security *)
| not_null_violation      (* 23502 *)
| unique_violation        (* 23505: todos_pkey *)
| foreign_key_violation.  (* 23503: todos_user_id_fkey *)

Inductive Result (A : Type) : Type :=
| Ok (a : A)
| Err (e : PgError).
Arguments Ok {A} a.
Arguments Err {A} e.

(** What a transaction reads from its surroundings: the caller's identity
    ([auth.uid()], NULL when the request carries no session), the
    transaction time ([now()]) and the value [gen_random_uuid()] draws. *)
Record Txn : Type := mkTxn {
  auth_uid : option uuid;
  now : timestamp;
  gen_random_uuid : uuid
}.

(** The database: [auth.users] (its ids) and [public.todos]. *)
Record Db : Type := mkDb {
  auth_users : list uuid;
  public_todos : list Todo
}.

(** *** Three-valued comparison *)

(** SQL [=]: NULL when either side is NULL. Uuids are compared as their
    text, which is right for the canonical lower-case text the store hands
    out; that a filter value is a uuid at all is not looked at here. *)
Definition sql_eq (a b : option uuid) : option bool :=
  match a, b with
  | Some x, Some y => Some (bool_decide (x = y))
  | _, _ => None
  end.

(** A policy expression admits a row only when it evaluates to TRUE. *)
Definition is_true (v : option bool) : bool :=
  match v with Some true => true | _ => false end.

(** *** The four policies (migration lines 16-34) *)

(** ["Users can view their own todos"]: [USING (auth.uid() = user_id)] *)
Definition policy_select (tx : Txn) (r : Todo) : bool :=
  is_true (sql_eq (auth_uid tx) (Some (user_id r))).

(** ["Users can create their own todos"]:
    [WITH CHECK (auth.uid() = user_id)], on the proposed row *)
Definition policy_insert_check (tx : Txn) (t : Tuple) : bool :=
  is_true (sql_eq (auth_uid tx) (t_user_id t)).

(** ["Users can update their own todos"]: [USING (auth.uid() = user_id)] *)
Definition policy_update (tx : Txn) (r : Todo) : bool :=
  is_true (sql_eq (auth_uid tx) (Some (user_id r))).

(** An UPDATE policy without WITH CHECK applies its USING expression to
    the new row as well. *)
Definition policy_update_check (tx : Txn) (t : Tuple) : bool :=
  is_true (sql_eq (auth_uid tx) (t_user_id t)).

(** ["Users can delete their own todos"]: [USING (auth.uid() = user_id)] *)
Definition policy_delete (tx : Txn) (r : Todo) : bool :=
  is_true (sql_eq (auth_uid tx) (Some (user_id r))).

(** *** The trigger (migration lines 37-49) *)

(** [handle_updated_at]: [NEW.updated_at = now(); RETURN NEW;] *)
Definition handle_updated_at (tx : Txn) (new : Tuple) : Tuple :=
  mkTuple (t_id new) (t_user_id new) (t_title new) (t_description new)
          (t_completed new) (t_created_at new) (Some (now tx)).

(** *** Column defaults and constraints (migration lines 2-10) *)

Definition with_default {A} (c : Cell A) (dflt : option A) : option A :=
  match c with
  | Omitted => dflt
  | Null => None
  | Value a => Some a
  end.

(** The row an INSERT proposes: omitted columns take their DEFAULT
    ([title], [user_id] and [description] have none, i.e. NULL). *)
Definition proposed_row (tx : Txn) (b : Body) : Tuple :=
  mkTuple (with_default (b_id b) (Some (gen_random_uuid tx)))
          (with_default (b_user_id b) None)
          (with_default (b_title b) None)
          (with_default (b_description b) None)
          (with_default (b_completed b) (Some false))
          (with_default (b_created_at b) (Some (now tx)))
          (with_default (b_updated_at b) (Some (now tx))).

(** The row an UPDATE proposes: omitted columns keep the old value. *)
Definition patched_row (b : Body) (old : Todo) : Tuple :=
  mkTuple (with_default (b_id b) (Some (id old)))
          (with_default (b_user_id b) (Some (user_id old)))
          (with_default (b_title b) (Some (title old)))
          (with_default (b_description b) (description old))
          (with_default (b_completed b) (Some (completed old)))
          (with_default (b_created_at b) (Some (created_at old)))
          (with_default (b_updated_at b) (Some (updated_at old))).

(** NOT NULL on every column but [description]. *)
Definition not_null (t : Tuple) : option Todo :=
  match t_id t, t_user_id t, t_title t, t_completed t,
        t_created_at t, t_updated_at t with
  | Some i, Some u, Some ti, Some c, Some ca, Some ua =>
      Some (mkTodo i ti (t_description t) c ca ua u)
  | _, _, _, _, _, _ => None
  end.

(** [id ... PRIMARY KEY] *)
Definition pkey_free (i : uuid) (rows : list Todo) : bool :=
  forallb (fun r => negb (String.eqb (id r) i)) rows.

(** [user_id UUID REFERENCES auth.users] *)
Definition fkey_ok (db : Db) (u : uuid) : bool :=
  existsb (String.eqb u) (auth_users db).

(** *** Statements *)

(** Rows of a SELECT are listed newest first when the caller orders by
    [created_at] descending. SQL leaves the order of rows with equal
    [created_at] open; here they come out in reverse table order. *)
Fixpoint insert_desc (r : Todo) (sorted : list Todo) : list Todo :=
  match sorted with
  | [] => [r]
  | x :: rest =>
      if created_at x <? created_at r then r :: sorted
      else x :: insert_desc r rest
  end.

Definition order_by_created_at_desc (rows : list Todo) : list Todo :=
  fold_right insert_desc [] rows.

(** [SELECT * FROM todos WHERE <where_> ORDER BY created_at DESC]: the
    policy's USING expression is conjoined with the caller's filter. *)
Definition select (tx : Txn) (where_ : Todo -> bool) (db : Db) : list Todo :=
  order_by_created_at_desc
    (List.filter (fun r => policy_select tx r && where_ r) (public_todos db)).

(** [INSERT INTO todos (...) VALUES (...) RETURNING *]: the policy check
    comes first, then the constraints; an error leaves the table as it
    was. That a title is text the store can hold (no U+0000, surrogates in
    pairs) is not looked at here; statements about which inserts succeed
    assume [pg_text] of the title. *)
Definition insert (tx : Txn) (b : Body) (db : Db) : Db * Result Todo :=
  let new := proposed_row tx b in
  if negb (policy_insert_check tx new) then (db, Err rls_violation) else
  match not_null new with
  | None => (db, Err not_null_violation)
  | Some r =>
      if negb (pkey_free (id r) (public_todos db))
      then (db, Err unique_violation)
      else if negb (fkey_ok db (user_id r))
      then (db, Err foreign_key_violation)
      else (mkDb (auth_users db) (public_todos db ++ [r]), Ok r)
  end.

(** One row of an UPDATE: the BEFORE UPDATE trigger runs on the patched
    row, then the policy check, then the constraints (the key constraints
    only for a key that changed). A changed key is compared with the keys
    from before the statement, which is the whole check only when the
    statement changes the key of at most one row. *)
Definition update_row (tx : Txn) (b : Body) (db : Db) (old : Todo)
  : Result Todo :=
  let new := handle_updated_at tx (patched_row b old) in
  if negb (policy_update_check tx new) then Err rls_violation else
  match not_null new with
  | None => Err not_null_violation
  | Some r =>
      if negb (String.eqb (id r) (id old))
         && negb (pkey_free (id r) (public_todos db))
      then Err unique_violation
      else if negb (String.eqb (user_id r) (user_id old))
              && negb (fkey_ok db (user_id r))
      then Err foreign_key_violation
      else Ok r
  end.

(** The rows of the table after an UPDATE, with the number of rows it
    changed: rows outside the policy or the filter are passed over in
    silence; the first failing row aborts the statement. *)
Fixpoint update_rows (tx : Txn) (b : Body) (where_ : Todo -> bool)
         (db : Db) (rows : list Todo) : Result (list Todo * nat) :=
  match rows with
  | [] => Ok ([], 0%nat)
  | r :: rest =>
      if policy_update tx r && where_ r then
        match update_row tx b db r with
        | Err e => Err e
        | Ok r' =>
            match update_rows tx b where_ db rest with
            | Err e => Err e
            | Ok (rest', n) => Ok (r' :: rest', S n)
            end
        end
      else
        match update_rows tx b where_ db rest with
        | Err e => Err e
        | Ok (rest', n) => Ok (r :: rest', n)
        end
  end.

(** [UPDATE todos SET ... WHERE <where_>]; the result is the number of
    rows changed. *)
Definition update (tx : Txn) (b : Body) (where_ : Todo -> bool) (db : Db)
  : Db * Result nat :=
  match update_rows tx b where_ db (public_todos db) with
  | Err e => (db, Err e)
  | Ok (rows', n) => (mkDb (auth_users db) rows', Ok n)
  end.

(** [DELETE FROM todos WHERE <where_>]: removes the rows that pass both
    the policy and the filter; the result is their number. No row within
    reach is not an error. *)
Definition delete (tx : Txn) (where_ : Todo -> bool) (db : Db)
  : Db * Result nat :=
  let hit r := policy_delete tx r && where_ r in
  (mkDb (auth_users db) (List.filter (fun r => negb (hit r)) (public_todos db)),
   Ok (length (List.filter hit (public_todos db)))).

End Pg.

(* ===================================================================== *)
(** ** The Todos page *)
(* ===================================================================== *)

Module Auth.
(** The [user] of [useAuth()], as far as the page reads it. *)
Record User : Type := mkUser { id : uuid; email : string }.
End Auth.

(** [user?.id] *)
Definition user_id_of (user : option Auth.User) : option uuid :=
  match user with
  | Some u => Some (Auth.id u)
  | None => None
  end.

Module Page.

(** *** The Supabase client, as the page sees it *)

Inductive PostgrestError : Type :=
| pg_error (e : Pg.PgError)   (* the statement failed *)
| invalid_uuid                (* 22P02: a filter value that is no uuid *)
| fetch_error.                (* no answer from the service *)

(** What [await] on a query gives: [{ data, error: null }],
    [{ data: null, error }], or the promise rejects. *)
Inductive Reply (A : Type) : Type :=
| Fulfilled (data : A)
| Failed (error : PostgrestError)
| Rejected.
Arguments Fulfilled {A} data.
Arguments Failed {A} error.
Arguments Rejected {A}.

(** The four queries the page builds on [supabase.from('todos')]. *)
Inductive Query : Type :=
| Select (eq_user_id : option uuid)
    (* .select( * ).eq('user_id', _).order('created_at', { ascending: false }) *)
| InsertSingle (title : jsstring) (user_id : option uuid) (completed : bool)
    (* .insert([{ title, user_id, completed }]).select().single() *)
| Update (completed : bool) (eq_id : uuid) (eq_user_id : option uuid)
    (* .update({ completed }).eq('id', _).eq('user_id', _) *)
| Delete (eq_id : uuid) (eq_user_id : option uuid).
    (* .delete().eq('id', _).eq('user_id', _) *)

(** The service behind the client: [Srv] is its state, [Env] whatever
    else decides the answer to one call (network, session, clock). A
    list query may answer with [data] null, hence the option. *)
Record Supabase (Env Srv : Type) : Type := mkSupabase {
  run_select : Env -> option uuid -> Srv -> Srv * Reply (option (list Todo));
  run_insert : Env -> jsstring -> option uuid -> bool -> Srv -> Srv * Reply Todo;
  run_update : Env -> bool -> uuid -> option uuid -> Srv -> Srv * Reply unit;
  run_delete : Env -> uuid -> option uuid -> Srv -> Srv * Reply unit
}.
Arguments run_select {Env Srv} _ _ _ _.
Arguments run_insert {Env Srv} _ _ _ _ _ _.
Arguments run_update {Env Srv} _ _ _ _ _ _.
Arguments run_delete {Env Srv} _ _ _ _ _.

(** *** React state and observable effects *)

(** The four [useState] cells of the component. *)
Record View : Type := mkView {
  todos : list Todo;
  newTodo : jsstring;
  loading : bool;
  adding : bool
}.

(** [useState([])], [useState('')], [useState(true)], [useState(false)] *)
Definition initial : View := mkView [] [] true false.

Inductive Variant : Type := default_variant | destructive.

Inductive Effect : Type :=
| PreventDefault
| Sent (q : Query)
| Toast (title description : string) (variant : Variant)
| ConsoleError (msg : string).

Record World (Srv : Type) : Type := mkWorld {
  view : View;
  server : Srv;
  effects : list Effect   (* oldest first *)
}.
Arguments mkWorld {Srv} _ _ _.
Arguments view {Srv} _.
Arguments server {Srv} _.
Arguments effects {Srv} _.

(** Handlers are programs over the world. *)
Definition M (Srv A : Type) : Type := World Srv -> A * World Srv.

#[global] Instance M_ret {Srv} : MRet (M Srv) :=
  fun A a w => (a, w).
#[global] Instance M_bind {Srv} : MBind (M Srv) :=
  fun A B k m w => let '(a, w') := m w in k a w'.

Section Ops.
Context {Srv : Type}.

Definition on_view (f : View -> View) : M Srv unit :=
  fun w => (tt, mkWorld (f (view w)) (server w) (effects w)).

Definition setTodos (l : list Todo) : M Srv unit :=
  on_view (fun v => mkView l (newTodo v) (loading v) (adding v)).
Definition setNewTodo (s : jsstring) : M Srv unit :=
  on_view (fun v => mkView (todos v) s (loading v) (adding v)).
Definition setLoading (b : bool) : M Srv unit :=
  on_view (fun v => mkView (todos v) (newTodo v) b (adding v)).
Definition setAdding (b : bool) : M Srv unit :=
  on_view (fun v => mkView (todos v) (newTodo v) (loading v) b).

Definition emit (e : Effect) : M Srv unit :=
  fun w => (tt, mkWorld (view w) (server w) (effects w ++ [e])).

Definition toast (title description : string) (variant : Variant)
  : M Srv unit := emit (Toast title description variant).
Definition console_error (msg : string) : M Srv unit :=
  emit (ConsoleError msg).

(** [await] on a query: the request is sent, the service moves, the
    reply comes back. *)
Definition await {A} (q : Query) (call : Srv -> Srv * Reply A)
  : M Srv (Reply A) :=
  fun w =>
    let '(s', r) := call (server w) in
    (r, mkWorld (view w) s' (effects w ++ [Sent q])).
End Ops.

(** [todo.id === id] *)
Definition id_is (i : uuid) (todo : Todo) : bool := String.eqb (id todo) i.

(** [{ ...todo, completed: c }] *)
Definition with_completed (c : bool) (todo : Todo) : Todo :=
  mkTodo (id todo) (title todo) (description todo) c
         (created_at todo) (updated_at todo) (user_id todo).

(** *** The handlers (Todos.tsx lines 35-159)

    The arguments [user], [todos] and [newTodo] are what the handler's
    closure captured at the render that created it. *)

Section Handlers.
Context {Env Srv : Type} (supabase : Supabase Env Srv).
Variable user : option Auth.User.
Variable todos : list Todo.
Variable newTodo : jsstring.

Definition fetchTodos (env : Env) : M Srv unit :=
  r ← await (Select (user_id_of user))
            (run_select supabase env (user_id_of user));
  match r with
  | Fulfilled data =>
      setTodos (default [] data)
  | Failed error =>
      toast "Error" "Failed to fetch todos" destructive;;
      console_error "Error fetching todos:"
  | Rejected =>
      console_error "Error fetching todos:"
  end;;
  setLoading false.

Definition addTodo (env : Env) : M Srv unit :=
  emit PreventDefault;;
  if negb (truthy (trim newTodo)) then
    toast "Error" "Please enter a todo title" destructive
  else
    setAdding true;;
    r ← await (InsertSingle (trim newTodo) (user_id_of user) false)
              (run_insert supabase env (trim newTodo) (user_id_of user) false);
    match r with
    | Fulfilled data =>
        setTodos (data :: todos);;
        setNewTodo [];;
        toast "Success" "Todo added successfully!" default_variant
    | Failed error =>
        toast "Error" "Failed to add todo" destructive;;
        console_error "Error adding todo:"
    | Rejected =>
        console_error "Error adding todo:"
    end;;
    setAdding false.

Definition toggleTodo (id : uuid) (completed : bool) (env : Env)
  : M Srv unit :=
  r ← await (Update (negb completed) id (user_id_of user))
            (run_update supabase env (negb completed) id (user_id_of user));
  match r with
  | Fulfilled _ =>
      setTodos (List.map (fun todo =>
                  if id_is id todo
                  then with_completed (negb completed) todo
                  else todo) todos)
  | Failed error =>
      toast "Error" "Failed to update todo" destructive;;
      console_error "Error updating todo:"
  | Rejected =>
      console_error "Error updating todo:"
  end.

Definition deleteTodo (id : uuid) (env : Env) : M Srv unit :=
  r ← await (Delete id (user_id_of user))
            (run_delete supabase env id (user_id_of user));
  match r with
  | Fulfilled _ =>
      setTodos (List.filter (fun todo => negb (id_is id todo)) todos);;
      toast "Success" "Todo deleted successfully!" default_variant
  | Failed error =>
      toast "Error" "Failed to delete todo" destructive;;
      console_error "Error deleting todo:"
  | Rejected =>
      console_error "Error deleting todo:"
  end.
End Handlers.

End Page.

(* ===================================================================== *)
(** ** The service the page talks to: PostgREST in front of the table *)
(* ===================================================================== *)

Module Service.
Import Page.

(** What the network does to one call. *)
Inductive Net : Type :=
| Delivered      (* request and reply both arrive *)
| Unreachable    (* the request never reaches the service *)
| ReplyLost      (* the statement runs, its reply is lost *)
| Throws.        (* the awaited promise rejects before anything is sent *)

Record Env : Type := mkEnv { net : Net; txn : Pg.Txn }.

Definition over_network {A} (n : Net) (exec : Pg.Db -> Pg.Db * Reply A)
           (db : Pg.Db) : Pg.Db * Reply A :=
  match n with
  | Delivered => exec db
  | Unreachable => (db, Failed fetch_error)
  | ReplyLost => (fst (exec db), Failed fetch_error)
  | Throws => (db, Rejected)
  end.

(** [user_id=eq.<u>] *)
Definition eq_user_id (u : uuid) (r : Todo) : bool :=
  String.eqb (user_id r) u.

(** [id=eq.<i>&user_id=eq.<u>] *)
Definition eq_id_user_id (i u : uuid) (r : Todo) : bool :=
  id_is i r && eq_user_id u r.

(** [GET /todos?select=*&user_id=eq.<u>&order=created_at.desc]; an
    [undefined] filter value is sent as the text "undefined", which is no
    uuid. *)
Definition get (tx : Pg.Txn) (u : option uuid) (db : Pg.Db)
  : Pg.Db * Reply (option (list Todo)) :=
  match u with
  | None => (db, Failed invalid_uuid)
  | Some u => (db, Fulfilled (Some (Pg.select tx (eq_user_id u) db)))
  end.

(** The JSON body of the page's insert; a key whose value is [undefined]
    is dropped by serialisation. *)
Definition insert_body (title : jsstring) (u : option uuid) (completed : bool)
  : Pg.Body :=
  Pg.mkBody Pg.Omitted
            (match u with Some u => Pg.Value u | None => Pg.Omitted end)
            (Pg.Value title) Pg.Omitted (Pg.Value completed)
            Pg.Omitted Pg.Omitted.

(** [POST /todos?select=*], expecting a single object back. *)
Definition post (tx : Pg.Txn) (title : jsstring) (u : option uuid)
           (completed : bool) (db : Pg.Db) : Pg.Db * Reply Todo :=
  match Pg.insert tx (insert_body title u completed) db with
  | (db', Pg.Ok r) => (db', Fulfilled r)
  | (db', Pg.Err e) => (db', Failed (pg_error e))
  end.

Definition update_body (completed : bool) : Pg.Body :=
  Pg.mkBody Pg.Omitted Pg.Omitted Pg.Omitted Pg.Omitted (Pg.Value completed)
            Pg.Omitted Pg.Omitted.

(** [PATCH /todos?id=eq.<i>&user_id=eq.<u>]: answers 204 whatever the
    number of rows changed. *)
Definition patch (tx : Pg.Txn) (completed : bool) (i : uuid)
           (u : option uuid) (db : Pg.Db) : Pg.Db * Reply unit :=
  match u with
  | None => (db, Failed invalid_uuid)
  | Some u =>
      match Pg.update tx (update_body completed) (eq_id_user_id i u) db with
      | (db', Pg.Ok _) => (db', Fulfilled tt)
      | (db', Pg.Err e) => (db', Failed (pg_error e))
      end
  end.

(** [DELETE /todos?id=eq.<i>&user_id=eq.<u>]: likewise. *)
Definition delete (tx : Pg.Txn) (i : uuid) (u : option uuid) (db : Pg.Db)
  : Pg.Db * Reply unit :=
  match u with
  | None => (db, Failed invalid_uuid)
  | Some u =>
      match Pg.delete tx (eq_id_user_id i u) db with
      | (db', Pg.Ok _) => (db', Fulfilled tt)
      | (db', Pg.Err e) => (db', Failed (pg_error e))
      end
  end.

Definition supabase : Supabase Env Pg.Db :=
  mkSupabase Env Pg.Db
    (fun env u => over_network (net env) (get (txn env) u))
    (fun env t u c => over_network (net env) (post (txn env) t u c))
    (fun env c i u => over_network (net env) (patch (txn env) c i u))
    (fun env i u => over_network (net env) (delete (txn env) i u)).

End Service.

(** *** What the rendered page lets the user do *)

Module UI.
Import Page.

Inductive Event : Type :=
| Activated                    (* useEffect(..., [user]) *)
| Submit                       (* <form onSubmit={addTodo}> *)
| CheckedChange (todo : Todo)  (* () => toggleTodo(todo.id, todo.completed) *)
| ClickDelete (todo : Todo).   (* () => deleteTodo(todo.id) *)

(** One event, handled to completion by the handler of the current
    render. *)
Definition handle {Env Srv} (supabase : Supabase Env Srv)
           (user : option Auth.User) (ev : Event) (env : Env)
           (w : World Srv) : World Srv :=
  let v := view w in
  match ev with
  | Activated =>
      match user with
      | Some _ => snd (fetchTodos supabase user env w)
      | None => w
      end
  | Submit => snd (addTodo supabase user (todos v) (newTodo v) env w)
  | CheckedChange todo =>
      snd (toggleTodo supabase user (todos v) (id todo) (completed todo) env w)
  | ClickDelete todo =>
      snd (deleteTodo supabase user (todos v) (id todo) env w)
  end.

(** The same when other replies may have come in between. The event was
    raised on the render that showed [rendered], so that is what the
    closure of its handler holds; its request is answered in the world [w],
    whose state the setters change. [handle] is the case
    [rendered = view w]: nothing was answered since the render. *)
Definition settle {Env Srv} (supabase : Supabase Env Srv)
           (user : option Auth.User) (rendered : View) (ev : Event) (env : Env)
           (w : World Srv) : World Srv :=
  match ev with
  | Activated =>
      match user with
      | Some _ => snd (fetchTodos supabase user env w)
      | None => w
      end
  | Submit =>
      snd (addTodo supabase user (todos rendered) (newTodo rendered) env w)
  | CheckedChange todo =>
      snd (toggleTodo supabase user (todos rendered) (id todo) (completed todo)
                      env w)
  | ClickDelete todo =>
      snd (deleteTodo supabase user (todos rendered) (id todo) env w)
  end.
End UI.

(* ===================================================================== *)
(** ** Notions the statements use, and sample data *)
(* ===================================================================== *)

(** Rows of the table owned by [u]. *)
Definition owned_by (u : uuid) (r : Todo) : bool := String.eqb (user_id r) u.

Definition rows_of (u : uuid) (db : Pg.Db) : list Todo :=
  List.filter (owned_by u) (Pg.public_todos db).

(** The same request body with another title. *)
Definition set_title (t : Pg.Cell jsstring) (b : Pg.Body) : Pg.Body :=
  Pg.mkBody (Pg.b_id b) (Pg.b_user_id b) t (Pg.b_description b)
            (Pg.b_completed b) (Pg.b_created_at b) (Pg.b_updated_at b).

(** Every row of the table was last stamped at [t] or before. *)
Definition stamped_until (t : timestamp) (db : Pg.Db) : Prop :=
  Forall (fun r => updated_at r <= t) (Pg.public_todos db).

(** What [UPDATE todos SET completed = c] makes of a row within reach at
    transaction time. *)
Definition completed_at (tx : Pg.Txn) (c : bool) (r : Todo) : Todo :=
  mkTodo (id r) (title r) (description r) c (created_at r) (Pg.now tx)
         (user_id r).

(** The [map] callback of [toggleTodo]. *)
Definition flip_local (i : uuid) (c : bool) (todo : Todo) : Todo :=
  if Page.id_is i todo then Page.with_completed (negb c) todo else todo.

(** A reply that is not a success: the [error] branch or the [catch]
    block. *)
Definition unsuccessful {A} (r : Page.Reply A) : Prop :=
  match r with
  | Page.Fulfilled _ => False
  | Page.Failed _ | Page.Rejected => True
  end.

(** All the columns of a row but [updated_at]. *)
Definition but_stamp (r : Todo)
  : uuid * jsstring * option jsstring * bool * timestamp * uuid :=
  (id r, title r, description r, completed r, created_at r, user_id r).

(** The list of the page mirrors the rows [u] owns in the table: the same
    rows, in some order, up to their [updated_at]. *)
Definition in_sync (u : uuid) (w : Page.World Pg.Db) : Prop :=
  Permutation (List.map but_stamp (Page.todos (Page.view w)))
              (List.map but_stamp (rows_of u (Page.server w))).

(** Events handled one at a time for user [u]: each request is delivered
    at its transaction and answered before the next event is raised, so
    every handler runs on the render of the state it finds. *)
Fixpoint one_at_a_time (u : Auth.User) (steps : list (UI.Event * Pg.Txn))
         (w : Page.World Pg.Db) : Page.World Pg.Db :=
  match steps with
  | [] => w
  | (ev, tx) :: rest =>
      one_at_a_time u rest
        (UI.handle Service.supabase (Some u) ev
                   (Service.mkEnv Service.Delivered tx) w)
  end.

(** The constraints of the table: [id] is a key, every [user_id] is in
    [auth.users]. *)
Definition table_ok (db : Pg.Db) : Prop :=
  NoDup (List.map id (Pg.public_todos db)) /\
  Forall (fun r => In (user_id r) (Pg.auth_users db)) (Pg.public_todos db).

(** Newest first: no row is older than a row after it. *)
Definition newest_first (l : list Todo) : Prop :=
  StronglySorted (fun a b => created_at b <= created_at a) l.

(** Number of queries among some effects. *)
Definition sent_count (l : list Page.Effect) : nat :=
  length (List.filter (fun e => match e with Page.Sent _ => true | _ => false end)
                      l).

(** Text the store can hold, as UTF-16: no U+0000, every code unit below
    0x10000, and surrogates only as a high one followed by a low one. *)
Fixpoint pg_text (s : jsstring) : bool :=
  match s with
  | [] => true
  | c :: rest =>
      if ((0xD800 <=? c) && (c <=? 0xDBFF))%N then
        match rest with
        | d :: rest' => ((0xDC00 <=? d) && (d <=? 0xDFFF))%N && pg_text rest'
        | [] => false
        end
      else
        ((0 <? c) && (c <? 0x10000) && negb ((0xDC00 <=? c) && (c <=? 0xDFFF)))%N
        && pg_text rest
  end.

(** Every row was created no later than it was last stamped, and last
    stamped at [t] or before. *)
Definition well_stamped (t : timestamp) (db : Pg.Db) : Prop :=
  Forall (fun r => created_at r <= updated_at r /\ updated_at r <= t)
         (Pg.public_todos db).

(** A title with something in it and no white space at either end. *)
Definition clean_title (t : jsstring) : Prop :=
  t <> [] /\
  (forall c rest, t = c :: rest -> isWhiteSpace c = false) /\
  (forall c rest, t = rest ++ [c] -> isWhiteSpace c = false).

(** On the columns of [but_stamp]: the row of id [i] gets the flag [c]. *)
Definition set_flag (i : uuid) (c : bool)
           (k : uuid * jsstring * option jsstring * bool * timestamp * uuid)
  : uuid * jsstring * option jsstring * bool * timestamp * uuid :=
  let '(i0, t, d, c0, ca, u) := k in
  if String.eqb i0 i then (i0, t, d, c, ca, u) else k.

(** On the columns of [but_stamp]: the row is not the one of id [i]. *)
Definition other_id (i : uuid)
           (k : uuid * jsstring * option jsstring * bool * timestamp * uuid)
  : bool :=
  let '(i0, _, _, _, _, _) := k in negb (String.eqb i0 i).

(** The effects a handler leaves when its request, the last of [sent], did
    not succeed: a destructive toast and a console line for an error reply,
    the console line alone for a rejected promise. *)
Definition reported {A Srv : Type} (sent : list Page.Effect)
           (said logged : string) (r : Page.Reply A) (w' : Page.World Srv)
  : Prop :=
  match r with
  | Page.Fulfilled _ => True
  | Page.Failed _ =>
      Page.effects w' =
        sent ++ [Page.Toast "Error" said Page.destructive;
                 Page.ConsoleError logged]
  | Page.Rejected => Page.effects w' = sent ++ [Page.ConsoleError logged]
  end.

(** What the component returns (Todos.tsx lines 173-276), as far as it
    depends on the state. *)
Module Render.
Import Page.

(** The three numbers of the stats card. *)
Record Stats : Type := mkStats {
  total : nat;       (* todos.length *)
  completed_count : nat;  (* todos.filter(t => t.completed).length *)
  remaining : nat    (* todos.filter(t => !t.completed).length *)
}.

(** [todos.length > 0 && <Card> ... </Card>] *)
Definition stats (todos : list Todo) : option Stats :=
  if (0 <? length todos)%nat
  then Some (mkStats (length todos)
                     (length (List.filter (fun t => completed t) todos))
                     (length (List.filter (fun t => negb (completed t)) todos)))
  else None.

(** The list area: the "No todos yet" card or one card per item. *)
Inductive ListArea : Type :=
| NoTodosYet
| Cards (items : list Todo).

Inductive Screen : Type :=
| LoadingScreen
| TodosScreen (welcome : option string) (submit_disabled : bool)
              (submit_label : string) (area : ListArea)
              (footer : option Stats).

Definition render (user : option Auth.User) (v : View) : Screen :=
  if loading v then LoadingScreen
  else TodosScreen
         (match user with Some u => Some (Auth.email u) | None => None end)
         (adding v)
         (if adding v then "Adding..." else "Add Todo")
         (if (length (todos v) =? 0)%nat then NoTodosYet else Cards (todos v))
         (stats (todos v)).
End Render.

Module Ex.
Definition alice : uuid := "a11ce000-0000-4000-8000-000000000001".
Definition bob : uuid := "b0b00000-0000-4000-8000-000000000002".

Definition alice_user : option Auth.User :=
  Some (Auth.mkUser alice "alice@example.org").

(** Both are signed up; the table is empty. *)
Definition db0 : Pg.Db := Pg.mkDb [alice; bob] [].

(** Transactions on behalf of Alice and of Bob. *)
Definition as_alice (t : timestamp) (fresh : uuid) : Pg.Txn :=
  Pg.mkTxn (Some alice) t fresh.
Definition as_bob (t : timestamp) (fresh : uuid) : Pg.Txn :=
  Pg.mkTxn (Some bob) t fresh.

Definition milk : Todo :=
  mkTodo "70d00000-0000-4000-8000-000000000001" (lit "Buy milk") None false
         1000 1000 alice.

Definition db_milk : Pg.Db := Pg.mkDb [alice; bob] [milk].

(** A row whose title is the empty string. *)
Definition untitled : Todo :=
  mkTodo "70d00000-0000-4000-8000-000000000002" [] None false 1000 1000 alice.

(** A body that supplies its own [updated_at], far ahead of the clock. *)
Definition postdated_body : Pg.Body :=
  Pg.mkBody Pg.Omitted (Pg.Value alice) (Pg.Value (lit "Buy milk"))
            Pg.Omitted Pg.Omitted Pg.Omitted (Pg.Value 5000).

Definition postdated : Todo :=
  mkTodo "70d00000-0000-4000-8000-000000000003" (lit "Buy milk") None false
         1000 5000 alice.

Definition delivered (tx : Pg.Txn) : Service.Env :=
  Service.mkEnv Service.Delivered tx.

(** The row Alice's "Buy eggs" makes at time 3000. *)
Definition eggs : Todo :=
  mkTodo "70d00000-0000-4000-8000-000000000004" (lit "Buy eggs") None false
         3000 3000 alice.

(** The render both of two overlapping events were raised on: "Buy milk"
    is listed, "Buy eggs" is typed. *)
Definition shown : Page.View :=
  Page.mkView [milk] (lit "Buy eggs") false false.
End Ex.

(** Runs a handler symbolically up to the reply of its one request. *)
Ltac run_handler :=
  unfold Page.fetchTodos, Page.addTodo, Page.toggleTodo, Page.deleteTodo,
    Page.await, Page.toast, Page.console_error, Page.emit, Page.setTodos,
    Page.setNewTodo, Page.setLoading, Page.setAdding, Page.on_view,
    mbind, Page.M_bind; simpl.

(* ===================================================================== *)
(** ** Facts about the table *)
(* ===================================================================== *)

Section PgFacts.
Import Pg.

Lemma is_true_sql_eq (a b : option uuid) :
  is_true (sql_eq a b) = true <-> exists u, a = Some u /\ b = Some u.
Proof.
  destruct a as [x|], b as [y|]; simpl;
    try (split; [discriminate | intros (? & ? & ?); discriminate]).
  case_bool_decide; simpl; split; try discriminate.
  - intros _. exists x. by subst.
  - done.
  - intros (u & ? & ?). congruence.
Qed.

Lemma policy_select_owner tx r :
  policy_select tx r = true <-> auth_uid tx = Some (user_id r).
Proof.
  unfold policy_select. rewrite is_true_sql_eq. split.
  - intros (u & -> & ?). congruence.
  - intros ->. eauto.
Qed.

Lemma policy_update_owner tx r :
  policy_update tx r = true <-> auth_uid tx = Some (user_id r).
Proof. apply policy_select_owner. Qed.

Lemma owned_by_false u r : owned_by u r = false <-> user_id r <> u.
Proof. unfold owned_by. apply String.eqb_neq. Qed.

(** The NOT NULL check only reads the tuple off. *)
Lemma not_null_Some t r :
  not_null t = Some r ->
  t_id t = Some (id r) /\ t_user_id t = Some (user_id r) /\
  t_title t = Some (title r) /\ t_description t = description r /\
  t_completed t = Some (completed r) /\
  t_created_at t = Some (created_at r) /\
  t_updated_at t = Some (updated_at r).
Proof.
  unfold not_null. intros H.
  destruct (t_id t), (t_user_id t), (t_title t), (t_completed t),
    (t_created_at t), (t_updated_at t); try discriminate.
  by injection H as <-.
Qed.

(** *** Sorting keeps the rows *)

Lemma In_insert_desc r x l : In x (insert_desc r l) <-> x = r \/ In x l.
Proof.
  induction l as [|y l IH]; simpl.
  - intuition congruence.
  - destruct (created_at y <? created_at r); simpl; [intuition congruence|].
    rewrite IH. intuition congruence.
Qed.

Lemma In_order_by x l : In x (order_by_created_at_desc l) <-> In x l.
Proof.
  induction l as [|y l IH]; simpl; [done|].
  rewrite In_insert_desc, IH. intuition congruence.
Qed.

Lemma In_select tx where_ db r :
  In r (select tx where_ db) <->
  In r (public_todos db) /\ policy_select tx r = true /\ where_ r = true.
Proof.
  unfold select. rewrite In_order_by, filter_In, andb_true_iff. tauto.
Qed.

(** *** INSERT *)

Lemma insert_Err tx b db db' e :
  insert tx b db = (db', Err e) -> db' = db.
Proof.
  unfold insert. intros H.
  repeat (case_match; simplify_eq); done.
Qed.

Lemma insert_Ok tx b db db' r :
  insert tx b db = (db', Ok r) ->
  db' = mkDb (auth_users db) (public_todos db ++ [r]) /\
  not_null (proposed_row tx b) = Some r /\
  auth_uid tx = Some (user_id r).
Proof.
  unfold insert. intros H.
  destruct (policy_insert_check tx (proposed_row tx b)) eqn:Hp; simpl in H;
    [|simplify_eq].
  destruct (not_null (proposed_row tx b)) as [r0|] eqn:Hn; [|simplify_eq].
  repeat (case_match; simplify_eq).
  split; [done|]. split; [done|].
  apply not_null_Some in Hn as (_ & Hu & _).
  unfold policy_insert_check in Hp. rewrite is_true_sql_eq in Hp.
  destruct Hp as (u & -> & Hu'). congruence.
Qed.

(** *** UPDATE *)

Lemma update_row_Ok tx b db old r :
  update_row tx b db old = Ok r ->
  not_null (handle_updated_at tx (patched_row b old)) = Some r /\
  auth_uid tx = Some (user_id r) /\
  updated_at r = now tx.
Proof.
  unfold update_row. intros H.
  destruct (policy_update_check _ _) eqn:Hp; simpl in H; [|simplify_eq].
  destruct (not_null _) as [r0|] eqn:Hn; [|simplify_eq].
  repeat (case_match; simplify_eq).
  split; [done|].
  apply not_null_Some in Hn as (_ & Hu & _ & _ & _ & _ & Hua).
  unfold policy_update_check in Hp. rewrite is_true_sql_eq in Hp.
  destruct Hp as (u & -> & Hu'). simpl in *. split; congruence.
Qed.

(** Row by row, an UPDATE either leaves a row as it was or replaces it by
    the outcome of [update_row] on a row within the caller's reach. *)
Lemma update_rows_Ok tx b where_ db rows rows' n :
  update_rows tx b where_ db rows = Ok (rows', n) ->
  Forall2 (fun old new =>
             (new = old /\ (policy_update tx old && where_ old) = false) \/
             (policy_update tx old = true /\ where_ old = true /\
              update_row tx b db old = Ok new))
          rows rows'.
Proof.
  revert rows' n. induction rows as [|r rows IH]; simpl; intros rows' n H.
  - simplify_eq. constructor.
  - destruct (policy_update tx r && where_ r) eqn:Hreach.
    + destruct (update_row tx b db r) as [r'|] eqn:Hr; [|simplify_eq].
      destruct (update_rows tx b where_ db rows) as [[rest' m]|] eqn:Hrest;
        simplify_eq.
      apply andb_true_iff in Hreach as [? ?].
      constructor; [right; done | by eapply IH].
    + destruct (update_rows tx b where_ db rows) as [[rest' m]|] eqn:Hrest;
        simplify_eq.
      constructor; [left; done | by eapply IH].
Qed.

Lemma update_Err tx b where_ db db' e :
  update tx b where_ db = (db', Err e) -> db' = db.
Proof.
  unfold update. intros H.
  destruct (update_rows _ _ _ _ _) as [[rows' n]|]; by simplify_eq.
Qed.

Lemma update_Ok tx b where_ db db' n :
  update tx b where_ db = (db', Ok n) ->
  auth_users db' = auth_users db /\
  update_rows tx b where_ db (public_todos db) = Ok (public_todos db', n).
Proof.
  unfold update. intros H.
  destruct (update_rows _ _ _ _ _) as [[rows' m]|]; by simplify_eq.
Qed.

(** No row within reach: the statement succeeds and changes nothing. *)
Lemma update_rows_out_of_reach tx b where_ db rows :
  Forall (fun r => (policy_update tx r && where_ r) = false) rows ->
  update_rows tx b where_ db rows = Ok (rows, 0%nat).
Proof.
  induction 1 as [|r rows Hr _ IH]; simpl; [done|].
  by rewrite Hr, IH.
Qed.

Lemma lookup_map {X Y} (f : X -> Y) (l : list X) j x :
  l !! j = Some x -> List.map f l !! j = Some (f x).
Proof.
  revert j. induction l as [|a l IH]; intros [|j] H; simpl in *;
    simplify_eq; eauto.
Qed.

Lemma filter_id {A} (f : A -> bool) (l : list A) :
  Forall (fun x => f x = true) l -> List.filter f l = l.
Proof.
  induction 1 as [|x l Hx _ IH]; simpl; [done|]. by rewrite Hx, IH.
Qed.
End PgFacts.

Section Isolation.
Import Pg.
Variables (A B : uuid) (tx : Txn).
Hypothesis A_not_B : A <> B.
Hypothesis caller_is_B : auth_uid tx = Some B.

Lemma reach_excludes_other r : policy_select tx r = true -> owned_by A r = false.
Proof.
  rewrite policy_select_owner, owned_by_false, caller_is_B. congruence.
Qed.

Lemma select_excludes_other where_ db r :
  user_id r = A -> ~ In r (select tx where_ db).
Proof.
  intros HA. rewrite In_select. intros (_ & Hp & _).
  apply reach_excludes_other, owned_by_false in Hp. done.
Qed.

Lemma insert_for_other_denied b db :
  b_user_id b <> Value B -> insert tx b db = (db, Err rls_violation).
Proof.
  intros Hb. unfold insert.
  destruct (policy_insert_check tx (proposed_row tx b)) eqn:Hp; [|done].
  exfalso. unfold policy_insert_check in Hp. rewrite is_true_sql_eq in Hp.
  destruct Hp as (u & Hu & Hrow). simpl in Hrow.
  destruct (b_user_id b); simpl in Hrow; try discriminate. congruence.
Qed.

Lemma insert_keeps_other b db :
  rows_of A (fst (insert tx b db)) = rows_of A db.
Proof.
  destruct (insert tx b db) as [db' [r|e]] eqn:H; simpl.
  - apply insert_Ok in H as (-> & _ & Hu). unfold rows_of. simpl.
    rewrite List.filter_app. simpl.
    assert (owned_by A r = false) as ->; [|by rewrite app_nil_r].
    apply owned_by_false. congruence.
  - by apply insert_Err in H as ->.
Qed.

Lemma update_rows_keep_other b where_ db rows rows' n :
  update_rows tx b where_ db rows = Ok (rows', n) ->
  List.filter (owned_by A) rows' = List.filter (owned_by A) rows.
Proof.
  intros H. apply update_rows_Ok in H.
  induction H as [|old new rows rows' Hrow _ IH]; simpl; [done|].
  destruct Hrow as [[-> _]|(Hp & _ & Hu)]; [by rewrite IH|].
  apply policy_update_owner in Hp. apply update_row_Ok in Hu as (_ & Hn & _).
  assert (owned_by A old = false) as ->
    by (apply owned_by_false; congruence).
  assert (owned_by A new = false) as ->
    by (apply owned_by_false; congruence).
  done.
Qed.

Lemma update_keeps_other b where_ db :
  rows_of A (fst (update tx b where_ db)) = rows_of A db.
Proof.
  destruct (update tx b where_ db) as [db' [n|e]] eqn:H; simpl.
  - apply update_Ok in H as [_ H]. by eapply update_rows_keep_other.
  - by apply update_Err in H as ->.
Qed.

(** Handing a row over to somebody else: either no row is within reach
    and nothing happens, or the new row fails the policy. *)
Lemma update_owner_denied b where_ db :
  b_user_id b <> Omitted -> b_user_id b <> Value B ->
  fst (update tx b where_ db) = db.
Proof.
  intros Hb1 Hb2.
  destruct (update tx b where_ db) as [db' [n|e]] eqn:H; simpl;
    [|by apply update_Err in H].
  apply update_Ok in H as [Hu H]. apply update_rows_Ok in H.
  destruct db as [users rows], db' as [users' rows']; simpl in *. f_equal; [done|].
  symmetry. induction H as [|old new l l' Hrow _ IH]; [done|]. f_equal; [|done].
  destruct Hrow as [[-> _]|(_ & _ & Hrow)]; [done|]. exfalso.
  apply update_row_Ok in Hrow as (Hn & Ha & _).
  apply not_null_Some in Hn as (_ & Hn & _). simpl in Hn.
  destruct (b_user_id b); simpl in Hn; congruence.
Qed.

Lemma delete_keeps_other where_ db :
  rows_of A (fst (delete tx where_ db)) = rows_of A db.
Proof.
  unfold rows_of. simpl.
  induction (public_todos db) as [|r rows IH]; simpl; [done|].
  destruct (policy_delete tx r) eqn:Hp; simpl.
  - assert (owned_by A r = false) as Hr by by apply reach_excludes_other.
    destruct (where_ r); simpl; by rewrite ?Hr, IH.
  - by rewrite IH.
Qed.
End Isolation.

(* ===================================================================== *)
(** ** The store: isolation, validation, timestamps *)
(* ===================================================================== *)

(** C1. Per-user isolation at the storage boundary. Let [A] and [B] be two
    different users and let a statement run as [B] (its [auth.uid()] is
    [B]). Then, whatever filter, body or table the statement has:
    - a row inserted as [A] is owned by [A], and a SELECT returns no row
      owned by [A];
    - an INSERT whose owner column is not [B] is refused with a row-level
      security error and leaves the table as it was, and any INSERT leaves
      the rows of [A] as they were;
    - an UPDATE leaves the rows of [A] as they were (none changed, none
      removed, none handed over to [A]), and an UPDATE that sets the owner
      to anybody but [B] changes nothing at all;
    - a DELETE leaves the rows of [A] as they were.
    All four follow from the policy expression [auth.uid() = user_id], which
    the statements themselves evaluate. *)
Theorem rls_isolation (A B : uuid) (tx : Pg.Txn) :
  A <> B ->
  Pg.auth_uid tx = Some B ->
  (forall txA b db db' r, Pg.auth_uid txA = Some A ->
                          Pg.insert txA b db = (db', Pg.Ok r) -> user_id r = A) /\
  (forall where_ db r, user_id r = A -> ~ In r (Pg.select tx where_ db)) /\
  (forall b db, Pg.b_user_id b <> Pg.Value B ->
                Pg.insert tx b db = (db, Pg.Err Pg.rls_violation)) /\
  (forall b db, rows_of A (fst (Pg.insert tx b db)) = rows_of A db) /\
  (forall b where_ db, rows_of A (fst (Pg.update tx b where_ db)) = rows_of A db) /\
  (forall b where_ db, Pg.b_user_id b <> Pg.Omitted ->
                       Pg.b_user_id b <> Pg.Value B ->
                       fst (Pg.update tx b where_ db) = db) /\
  (forall where_ db, rows_of A (fst (Pg.delete tx where_ db)) = rows_of A db).
Proof.
  intros HAB HB. repeat split; intros.
  - match goal with H : Pg.insert _ _ _ = _ |- _ =>
      apply insert_Ok in H as (_ & _ & ?) end.
    congruence.
  - by eapply select_excludes_other.
  - by eapply insert_for_other_denied.
  - by eapply insert_keeps_other.
  - by eapply update_keeps_other.
  - by eapply update_owner_denied.
  - by eapply delete_keeps_other.
Qed.

(** Bob deletes and updates without any filter, and tries to insert on
    Alice's behalf: her row stays, the insert is refused. *)
Lemma rls_isolation_witness :
  rows_of Ex.alice (fst (Pg.delete (Ex.as_bob 2000 "x") (fun _ => true) Ex.db_milk))
  = [Ex.milk] /\
  Pg.insert (Ex.as_bob 2000 "x") Ex.postdated_body Ex.db_milk
  = (Ex.db_milk, Pg.Err Pg.rls_violation).
Proof.
  destruct (rls_isolation Ex.alice Ex.bob (Ex.as_bob 2000 "x"))
    as (_ & _ & Hins & _ & _ & _ & Hdel); [discriminate | reflexivity |].
  split.
  - rewrite Hdel. reflexivity.
  - apply Hins. discriminate.
Defined.

(** C2, as the claim has it, fails: Alice inserts a row whose title is the
    empty string; the statement succeeds and the row is in the table. *)
Lemma store_accepts_empty_title :
  Pg.insert (Ex.as_alice 1000 (id Ex.untitled))
            (Service.insert_body [] (Some Ex.alice) false) Ex.db0
  = (Pg.mkDb (Pg.auth_users Ex.db0) [Ex.untitled], Pg.Ok Ex.untitled)
  /\ title Ex.untitled = [].
Proof. split; reflexivity. Qed.

Lemma proposed_row_set_title tx t b :
  Pg.proposed_row tx (set_title t b) =
  Pg.mkTuple (Pg.t_id (Pg.proposed_row tx b)) (Pg.t_user_id (Pg.proposed_row tx b))
             (Pg.with_default t None) (Pg.t_description (Pg.proposed_row tx b))
             (Pg.t_completed (Pg.proposed_row tx b))
             (Pg.t_created_at (Pg.proposed_row tx b))
             (Pg.t_updated_at (Pg.proposed_row tx b)).
Proof. reflexivity. Qed.

(** C2, amended. The table asks of [title] that it is NOT NULL, and has
    no check that it is not empty. An INSERT whose title is NULL (the key
    is missing or null) fails and leaves the table as it was. The empty
    string is not refused: an INSERT that succeeds with some title also
    succeeds with the empty string for a title. *)
Theorem insert_requires_title (tx : Pg.Txn) (b : Pg.Body) (db : Pg.Db) :
  (Pg.b_title b = Pg.Omitted \/ Pg.b_title b = Pg.Null ->
   exists e, Pg.insert tx b db = (db, Pg.Err e)) /\
  (forall db' r, Pg.insert tx b db = (db', Pg.Ok r) ->
     exists db'' r', Pg.insert tx (set_title (Pg.Value []) b) db = (db'', Pg.Ok r')
                     /\ title r' = []).
Proof.
  split.
  - intros Ht. unfold Pg.insert.
    destruct (Pg.policy_insert_check _ _); simpl; [|by eauto].
    assert (Pg.not_null (Pg.proposed_row tx b) = None) as ->; [|by eauto].
    unfold Pg.not_null, Pg.proposed_row; simpl.
    destruct Ht as [-> | ->]; simpl; by repeat case_match.
  - intros db' r H. unfold Pg.insert in *.
    rewrite proposed_row_set_title.
    destruct (Pg.proposed_row tx b) as [i u ti d c ca ua].
    unfold Pg.policy_insert_check, Pg.not_null in *. simpl in *.
    destruct (Pg.is_true _); simpl in *; [|discriminate].
    destruct i, u, ti, c, ca, ua; try discriminate. simpl in *.
    destruct (Pg.pkey_free _ _); simpl in *; [|discriminate].
    destruct (Pg.fkey_ok _ _); simpl in *; [|discriminate].
    eauto.
Qed.

Lemma insert_requires_title_witness :
  exists e, Pg.insert (Ex.as_alice 1000 "x")
                      (set_title Pg.Null Ex.postdated_body) Ex.db0
            = (Ex.db0, Pg.Err e).
Proof.
  apply (proj1 (insert_requires_title (Ex.as_alice 1000 "x")
                  (set_title Pg.Null Ex.postdated_body) Ex.db0)).
  right. reflexivity.
Defined.

(** *** The trigger *)

(** When is a stored [updated_at] not ahead of the clock? When every INSERT
    left the column to its DEFAULT: then each statement, run at a time not
    before the last one, keeps all stamps at or below its own time. *)
Section Stamps.
Import Pg.
Variables (tx : Txn) (t : timestamp).
Hypothesis clock : t <= now tx.

Lemma stamped_until_later db :
  stamped_until t db -> stamped_until (now tx) db.
Proof.
  unfold stamped_until. intros H. eapply Forall_impl; [exact H|].
  intros r Hr. simpl in *. lia.
Qed.

Lemma insert_stamped b db :
  b_updated_at b = Omitted ->
  stamped_until t db -> stamped_until (now tx) (fst (insert tx b db)).
Proof.
  intros Hb Hdb. apply stamped_until_later in Hdb.
  destruct (insert tx b db) as [db' [r|e]] eqn:H; simpl.
  - apply insert_Ok in H as (-> & Hrow & _). unfold stamped_until in *. simpl.
    apply Forall_app. split; [done|]. constructor; [|constructor].
    apply not_null_Some in Hrow as (_ & _ & _ & _ & _ & _ & Hua).
    simpl in Hua. rewrite Hb in Hua. simpl in Hua. injection Hua as <-. lia.
  - by apply insert_Err in H as ->.
Qed.

Lemma update_stamped b where_ db :
  stamped_until t db -> stamped_until (now tx) (fst (update tx b where_ db)).
Proof.
  intros Hdb. apply stamped_until_later in Hdb.
  destruct (update tx b where_ db) as [db' [n|e]] eqn:H; simpl;
    [|by apply update_Err in H as ->].
  apply update_Ok in H as [_ H]. apply update_rows_Ok in H.
  unfold stamped_until in *.
  induction H as [|old new l l' Hrow _ IH]; [constructor|].
  apply Forall_cons in Hdb as [Hold Hl]. constructor; [|by apply IH].
  destruct Hrow as [[-> _]|(_ & _ & Hrow)]; [done|].
  apply update_row_Ok in Hrow as (_ & _ & ->). lia.
Qed.

Lemma delete_stamped where_ db :
  stamped_until t db -> stamped_until (now tx) (fst (delete tx where_ db)).
Proof.
  intros Hdb. apply stamped_until_later in Hdb. unfold stamped_until in *.
  simpl. apply List.Forall_forall. intros r Hr. apply filter_In in Hr as [Hr _].
  rewrite List.Forall_forall in Hdb. by apply Hdb.
Qed.
End Stamps.

(** C7, as the claim has it, fails. Alice inserts a row and supplies its
    [updated_at] herself (the column only has a DEFAULT, and the trigger
    fires on UPDATE alone); one transaction later she marks it completed.
    The clock went forward, [updated_at] went back. *)
Lemma updated_at_decreases :
  Pg.insert (Ex.as_alice 1000 (id Ex.postdated)) Ex.postdated_body Ex.db0
  = (Pg.mkDb (Pg.auth_users Ex.db0) [Ex.postdated], Pg.Ok Ex.postdated)
  /\ Pg.update (Ex.as_alice 2000 "x") (Service.update_body true) (fun _ => true)
               (Pg.mkDb (Pg.auth_users Ex.db0) [Ex.postdated])
     = (Pg.mkDb (Pg.auth_users Ex.db0)
                [mkTodo (id Ex.postdated) (title Ex.postdated) None true 1000 2000
                        Ex.alice],
        Pg.Ok 1%nat)
  /\ ~ (updated_at Ex.postdated <= 2000).
Proof.
  split; [reflexivity|]. split; [reflexivity|].
  unfold Ex.postdated; simpl. lia.
Qed.

(** C7, amended. An UPDATE that succeeds leaves every row outside the
    caller's reach as it was and stamps every row within reach with the
    transaction time, whatever [updated_at] the body supplies. A row's
    [updated_at] therefore does not decrease exactly when the value it held
    was not later than the transaction time, and moves strictly forward
    exactly when that value was earlier. *)
Theorem update_stamps_now (tx : Pg.Txn) (b : Pg.Body) (where_ : Todo -> bool)
        (db db' : Pg.Db) (n : nat) :
  Pg.update tx b where_ db = (db', Pg.Ok n) ->
  Forall2 (fun old new =>
             (new = old /\ (Pg.policy_update tx old && where_ old) = false) \/
             ((Pg.policy_update tx old && where_ old) = true /\
              updated_at new = Pg.now tx /\
              (updated_at old <= updated_at new <-> updated_at old <= Pg.now tx) /\
              (updated_at old < updated_at new <-> updated_at old < Pg.now tx)))
          (Pg.public_todos db) (Pg.public_todos db').
Proof.
  intros H. apply update_Ok in H as [_ H]. apply update_rows_Ok in H.
  eapply Forall2_impl; [exact H|]. simpl.
  intros old new [Hsame|(Hp & Hw & Hrow)]; [by left|right].
  apply update_row_Ok in Hrow as (_ & _ & Hnow).
  rewrite Hp, Hw, Hnow. done.
Qed.

(** Alice marks her row completed and tries to keep its old timestamp. *)
Lemma update_stamps_now_witness :
  Forall2 (fun old new =>
             (new = old /\
              (Pg.policy_update (Ex.as_alice 2000 "x") old && true) = false) \/
             ((Pg.policy_update (Ex.as_alice 2000 "x") old && true) = true /\
              updated_at new = 2000 /\
              (updated_at old <= updated_at new <-> updated_at old <= 2000) /\
              (updated_at old < updated_at new <-> updated_at old < 2000)))
          [Ex.milk]
          [mkTodo (id Ex.milk) (title Ex.milk) None true 1000 2000 Ex.alice].
Proof.
  apply (update_stamps_now (Ex.as_alice 2000 "x")
           (Pg.mkBody Pg.Omitted Pg.Omitted Pg.Omitted Pg.Omitted
                      (Pg.Value true) Pg.Omitted (Pg.Value 1000))
           (fun _ => true) Ex.db_milk
           (Pg.mkDb [Ex.alice; Ex.bob]
                    [mkTodo (id Ex.milk) (title Ex.milk) None true 1000 2000
                            Ex.alice])
           1%nat).
  reflexivity.
Defined.

(* ===================================================================== *)
(** ** Facts about [trim] *)
(* ===================================================================== *)

Lemma trimStart_nil_iff (s : jsstring) :
  trimStart s = [] <-> forallb isWhiteSpace s = true.
Proof.
  induction s as [|c s IH]; simpl; [done|].
  destruct (isWhiteSpace c); simpl; [done|]. split; discriminate.
Qed.

(** What [trimStart] leaves does not start with white space. *)
Lemma trimStart_head (s : jsstring) c rest :
  trimStart s = c :: rest -> isWhiteSpace c = false.
Proof.
  induction s as [|d s IH]; simpl; [discriminate|].
  destruct (isWhiteSpace d) eqn:Hd; [done|]. congruence.
Qed.

Lemma forallb_rev {X} (f : X -> bool) (l : list X) :
  forallb f (rev l) = forallb f l.
Proof.
  induction l as [|x l IH]; simpl; [done|].
  rewrite forallb_app, IH. simpl. rewrite andb_true_r. apply andb_comm.
Qed.

(** The trimmed text is empty exactly for the empty and the
    white-space-only strings. *)
Lemma trim_nil_iff (s : jsstring) :
  trim s = [] <-> forallb isWhiteSpace s = true.
Proof.
  unfold trim, trimEnd. split.
  - intros H. apply (f_equal (@rev N)) in H. rewrite rev_involutive in H.
    simpl in H. apply trimStart_nil_iff in H. rewrite forallb_rev in H.
    destruct (trimStart s) as [|c rest] eqn:Hs; [by apply trimStart_nil_iff|].
    apply trimStart_head in Hs. simpl in H. by rewrite Hs in H.
  - intros H. apply trimStart_nil_iff in H. by rewrite H.
Qed.

Lemma truthy_false (s : jsstring) : truthy s = false <-> s = [].
Proof. by destruct s. Qed.

(* ===================================================================== *)
(** ** The page, against any service *)
(* ===================================================================== *)

Section AnyService.
Import Page.
Context {Env Srv : Type} (supabase : Supabase Env Srv).
Variables (user : option Auth.User) (env : Env) (w : World Srv).

(** [fetchTodos], one equation per reply. *)
Lemma fetchTodos_run :
  snd (fetchTodos supabase user env w) =
  let '(s', r) := run_select supabase env (user_id_of user) (server w) in
  let sent := effects w ++ [Sent (Select (user_id_of user))] in
  match r with
  | Fulfilled data =>
      mkWorld (mkView (default [] data) (newTodo (view w)) false
                      (adding (view w))) s' sent
  | Failed _ =>
      mkWorld (mkView (todos (view w)) (newTodo (view w)) false
                      (adding (view w))) s'
              ((sent ++ [Toast "Error" "Failed to fetch todos" destructive])
                 ++ [ConsoleError "Error fetching todos:"])
  | Rejected =>
      mkWorld (mkView (todos (view w)) (newTodo (view w)) false
                      (adding (view w))) s'
              (sent ++ [ConsoleError "Error fetching todos:"])
  end.
Proof.
  run_handler. destruct (run_select _ _ _ _) as [s' [data|e|]]; reflexivity.
Qed.

Lemma addTodo_rejected cl_todos cl_newTodo :
  trim cl_newTodo = [] ->
  snd (addTodo supabase user cl_todos cl_newTodo env w) =
  mkWorld (view w) (server w)
          ((effects w ++ [PreventDefault])
             ++ [Toast "Error" "Please enter a todo title" destructive]).
Proof. intros H. run_handler. rewrite H. reflexivity. Qed.

Lemma addTodo_run cl_todos cl_newTodo :
  truthy (trim cl_newTodo) = true ->
  snd (addTodo supabase user cl_todos cl_newTodo env w) =
  let q := InsertSingle (trim cl_newTodo) (user_id_of user) false in
  let '(s', r) := run_insert supabase env (trim cl_newTodo) (user_id_of user)
                             false (server w) in
  let sent := (effects w ++ [PreventDefault]) ++ [Sent q] in
  match r with
  | Fulfilled data =>
      mkWorld (mkView (data :: cl_todos) [] (loading (view w)) false) s'
              (sent ++ [Toast "Success" "Todo added successfully!"
                              default_variant])
  | Failed _ =>
      mkWorld (mkView (todos (view w)) (newTodo (view w)) (loading (view w))
                      false) s'
              ((sent ++ [Toast "Error" "Failed to add todo" destructive])
                 ++ [ConsoleError "Error adding todo:"])
  | Rejected =>
      mkWorld (mkView (todos (view w)) (newTodo (view w)) (loading (view w))
                      false) s'
              (sent ++ [ConsoleError "Error adding todo:"])
  end.
Proof.
  intros H. run_handler. rewrite H. simpl.
  destruct (run_insert _ _ _ _ _ _) as [s' [data|e|]]; reflexivity.
Qed.

Lemma toggleTodo_run cl_todos i c :
  snd (toggleTodo supabase user cl_todos i c env w) =
  let q := Update (negb c) i (user_id_of user) in
  let '(s', r) := run_update supabase env (negb c) i (user_id_of user)
                             (server w) in
  let sent := effects w ++ [Sent q] in
  match r with
  | Fulfilled _ =>
      mkWorld (mkView (List.map (fun todo => if id_is i todo
                                             then with_completed (negb c) todo
                                             else todo) cl_todos)
                      (newTodo (view w)) (loading (view w)) (adding (view w)))
              s' sent
  | Failed _ =>
      mkWorld (view w) s'
              ((sent ++ [Toast "Error" "Failed to update todo" destructive])
                 ++ [ConsoleError "Error updating todo:"])
  | Rejected =>
      mkWorld (view w) s' (sent ++ [ConsoleError "Error updating todo:"])
  end.
Proof.
  run_handler. destruct (run_update _ _ _ _ _ _) as [s' [data|e|]]; reflexivity.
Qed.

Lemma deleteTodo_run cl_todos i :
  snd (deleteTodo supabase user cl_todos i env w) =
  let q := Delete i (user_id_of user) in
  let '(s', r) := run_delete supabase env i (user_id_of user) (server w) in
  let sent := effects w ++ [Sent q] in
  match r with
  | Fulfilled _ =>
      mkWorld (mkView (List.filter (fun todo => negb (id_is i todo)) cl_todos)
                      (newTodo (view w)) (loading (view w)) (adding (view w)))
              s'
              (sent ++ [Toast "Success" "Todo deleted successfully!"
                              default_variant])
  | Failed _ =>
      mkWorld (view w) s'
              ((sent ++ [Toast "Error" "Failed to delete todo" destructive])
                 ++ [ConsoleError "Error deleting todo:"])
  | Rejected =>
      mkWorld (view w) s' (sent ++ [ConsoleError "Error deleting todo:"])
  end.
Proof.
  run_handler. destruct (run_delete _ _ _ _ _) as [s' [data|e|]]; reflexivity.
Qed.
End AnyService.

(** C3. Whatever the service, whatever the handler's closure captured: when
    the request of [fetchTodos], [addTodo], [toggleTodo] or [deleteTodo] is
    answered with an error (or the awaited promise rejects), the list the
    page holds after the handler is the list it held before. *)
Theorem failure_keeps_list {Env Srv : Type} (supabase : Page.Supabase Env Srv)
        (user : option Auth.User) (cl_todos : list Todo) (cl_newTodo : jsstring)
        (env : Env) (w : Page.World Srv) :
  (unsuccessful (snd (Page.run_select supabase env (user_id_of user)
                                      (Page.server w))) ->
   Page.todos (Page.view (snd (Page.fetchTodos supabase user env w)))
   = Page.todos (Page.view w)) /\
  (unsuccessful (snd (Page.run_insert supabase env (trim cl_newTodo)
                                      (user_id_of user) false (Page.server w))) ->
   Page.todos (Page.view (snd (Page.addTodo supabase user cl_todos cl_newTodo
                                            env w)))
   = Page.todos (Page.view w)) /\
  (forall i c,
     unsuccessful (snd (Page.run_update supabase env (negb c) i
                                        (user_id_of user) (Page.server w))) ->
     Page.todos (Page.view (snd (Page.toggleTodo supabase user cl_todos i c
                                                 env w)))
     = Page.todos (Page.view w)) /\
  (forall i,
     unsuccessful (snd (Page.run_delete supabase env i (user_id_of user)
                                        (Page.server w))) ->
     Page.todos (Page.view (snd (Page.deleteTodo supabase user cl_todos i
                                                 env w)))
     = Page.todos (Page.view w)).
Proof.
  repeat split.
  - rewrite fetchTodos_run.
    destruct (Page.run_select _ _ _ _) as [s' [data|e|]]; simpl; tauto.
  - destruct (truthy (trim cl_newTodo)) eqn:Ht.
    + rewrite addTodo_run by done.
      destruct (Page.run_insert _ _ _ _ _ _) as [s' [data|e|]]; simpl; tauto.
    + apply truthy_false in Ht. by rewrite addTodo_rejected.
  - intros i c. rewrite toggleTodo_run.
    destruct (Page.run_update _ _ _ _ _ _) as [s' [data|e|]]; simpl; tauto.
  - intros i. rewrite deleteTodo_run.
    destruct (Page.run_delete _ _ _ _ _) as [s' [data|e|]]; simpl; tauto.
Qed.

(** The service cannot be reached while Alice deletes her only item. *)
Lemma failure_keeps_list_witness :
  Page.todos (Page.view (snd (Page.deleteTodo Service.supabase Ex.alice_user
       [Ex.milk] (id Ex.milk)
       (Service.mkEnv Service.Unreachable (Ex.as_alice 2000 "x"))
       (Page.mkWorld (Page.mkView [Ex.milk] [] false false) Ex.db_milk []))))
  = [Ex.milk].
Proof.
  apply (failure_keeps_list Service.supabase Ex.alice_user [Ex.milk] []
           (Service.mkEnv Service.Unreachable (Ex.as_alice 2000 "x"))
           (Page.mkWorld (Page.mkView [Ex.milk] [] false false) Ex.db_milk [])).
  exact I.
Defined.

(** C8. Whatever the service: when the trimmed text of the input is empty,
    [addTodo] stops before it builds a request. The service is where it was
    (no insert was issued), the page state, its list included, is what it
    was, and the only effects are the [preventDefault] and the error toast;
    no [Sent] is among them. *)
Theorem blank_add_is_rejected {Env Srv : Type} (supabase : Page.Supabase Env Srv)
        (user : option Auth.User) (cl_todos : list Todo) (cl_newTodo : jsstring)
        (env : Env) (w : Page.World Srv) :
  trim cl_newTodo = [] ->
  let w' := snd (Page.addTodo supabase user cl_todos cl_newTodo env w) in
  Page.server w' = Page.server w /\
  Page.view w' = Page.view w /\
  Page.effects w' =
    Page.effects w ++ [Page.PreventDefault;
                       Page.Toast "Error" "Please enter a todo title"
                                  Page.destructive].
Proof.
  intros H. simpl. rewrite addTodo_rejected by done. simpl.
  by rewrite <- app_assoc.
Qed.

(** The input holds a tab, a no-break space and a line feed. *)
Lemma blank_add_is_rejected_witness :
  let w := Page.mkWorld (Page.mkView [Ex.milk] [9; 160; 10]%N false false)
                        Ex.db_milk [] in
  let w' := snd (Page.addTodo Service.supabase Ex.alice_user [Ex.milk]
                              [9; 160; 10]%N (Ex.delivered (Ex.as_alice 2000 "x"))
                              w) in
  Page.server w' = Ex.db_milk /\
  Page.view w' = Page.view w /\
  Page.effects w' =
    [] ++ [Page.PreventDefault;
           Page.Toast "Error" "Please enter a todo title" Page.destructive].
Proof.
  apply (blank_add_is_rejected Service.supabase Ex.alice_user [Ex.milk]
           [9; 160; 10]%N (Ex.delivered (Ex.as_alice 2000 "x"))
           (Page.mkWorld (Page.mkView [Ex.milk] [9; 160; 10]%N false false)
                         Ex.db_milk [])).
  reflexivity.
Defined.

(** C10. The list of the page starts as the empty array, and after
    [fetchTodos] it is: the empty array when the reply is a success without
    data, the rows of the reply when it has them, and the list from before
    when the reply is an error or the promise rejects. *)
Theorem fetch_sets_an_array {Env Srv : Type} (supabase : Page.Supabase Env Srv)
        (user : option Auth.User) (env : Env) (w : Page.World Srv) :
  Page.todos Page.initial = [] /\
  let w' := snd (Page.fetchTodos supabase user env w) in
  match snd (Page.run_select supabase env (user_id_of user) (Page.server w)) with
  | Page.Fulfilled None => Page.todos (Page.view w') = []
  | Page.Fulfilled (Some rows) => Page.todos (Page.view w') = rows
  | Page.Failed _ | Page.Rejected =>
      Page.todos (Page.view w') = Page.todos (Page.view w)
  end.
Proof.
  split; [reflexivity|]. simpl. rewrite fetchTodos_run.
  destruct (Page.run_select _ _ _ _) as [s' [[rows|]|e|]]; reflexivity.
Qed.

(** *** Toggle: what it touches *)




(* ===================================================================== *)
(** ** The page in front of the table *)
(* ===================================================================== *)

Section ServiceFacts.
Import Page Service.

Lemma run_insert_fulfilled env t u c db db' data :
  run_insert supabase env t u c db = (db', Fulfilled data) ->
  Pg.insert (txn env) (insert_body t u c) db = (db', Pg.Ok data).
Proof.
  simpl. unfold over_network, post.
  destruct (net env); destruct (Pg.insert _ _ _) as [db'' [r|e]]; simpl;
    intros; by simplify_eq.
Qed.

Lemma update_row_completed tx c db r :
  Pg.auth_uid tx = Some (user_id r) ->
  Pg.update_row tx (update_body c) db r = Pg.Ok (completed_at tx c r).
Proof.
  intros Hu. unfold Pg.update_row, Pg.policy_update_check. simpl.
  rewrite Hu. simpl. rewrite bool_decide_eq_true_2 by done. simpl.
  by rewrite !String.eqb_refl.
Qed.

Lemma eq_id_user_id_true i u r :
  eq_id_user_id i u r = true <-> id r = i /\ user_id r = u.
Proof.
  unfold eq_id_user_id, id_is, eq_user_id.
  by rewrite andb_true_iff, !String.eqb_eq.
Qed.

Lemma update_rows_completed tx c i u db rows :
  Pg.auth_uid tx = Some u ->
  exists n,
    Pg.update_rows tx (update_body c) (eq_id_user_id i u) db rows
    = Pg.Ok (List.map (fun r => if eq_id_user_id i u r
                                then completed_at tx c r else r) rows, n).
Proof.
  intros Hu. induction rows as [|r rows [n IH]]; simpl; [by eexists|].
  rewrite IH. destruct (eq_id_user_id i u r) eqn:Hr.
  - apply eq_id_user_id_true in Hr as [_ Hr].
    assert (Pg.policy_update tx r = true) as ->
      by (apply policy_update_owner; congruence).
    simpl. rewrite update_row_completed by congruence. by eexists.
  - rewrite andb_false_r. by eexists.
Qed.

(** The PATCH of [toggleTodo], delivered with the session of [u]. *)
Lemma patch_delivered tx c i u db :
  Pg.auth_uid tx = Some u ->
  patch tx c i (Some u) db
  = (Pg.mkDb (Pg.auth_users db)
             (List.map (fun r => if eq_id_user_id i u r
                                 then completed_at tx c r else r)
                       (Pg.public_todos db)),
     Fulfilled tt).
Proof.
  intros Hu. unfold patch, Pg.update.
  destruct (update_rows_completed tx c i u db (Pg.public_todos db) Hu)
    as [n ->]. reflexivity.
Qed.

(** No row of that id is left: PATCH and DELETE change nothing and
    answer without an error. *)
Lemma patch_stale tx c i u db :
  Forall (fun r => id r <> i) (Pg.public_todos db) ->
  patch tx c i (Some u) db = (db, Fulfilled tt).
Proof.
  intros H. unfold patch, Pg.update.
  rewrite update_rows_out_of_reach; [by destruct db|].
  eapply Forall_impl; [exact H|]. simpl. intros r Hr.
  apply andb_false_iff. right. apply not_true_iff_false.
  rewrite eq_id_user_id_true. tauto.
Qed.

Lemma delete_stale tx i u db :
  Forall (fun r => id r <> i) (Pg.public_todos db) ->
  delete tx i (Some u) db = (db, Fulfilled tt).
Proof.
  intros H. unfold delete, Pg.delete. simpl.
  rewrite filter_id; [by destruct db|].
  eapply Forall_impl; [exact H|]. simpl. intros r Hr.
  apply negb_true_iff, andb_false_iff. right. apply not_true_iff_false.
  rewrite eq_id_user_id_true. tauto.
Qed.

Lemma run_update_delivered tx c i u db :
  run_update supabase (mkEnv Delivered tx) c i u db = patch tx c i u db.
Proof. reflexivity. Qed.

Lemma run_delete_delivered tx i u db :
  run_delete supabase (mkEnv Delivered tx) i u db = delete tx i u db.
Proof. reflexivity. Qed.
End ServiceFacts.

(** C5, as the claim has it, fails. The page shows "Buy milk" and Alice has
    typed "Buy eggs". She clicks delete on the item and submits the form
    before the delete is answered, so both handlers hold the list of that
    render. The delete is answered first and empties the list. Then the
    insert is answered with the new row: the add succeeds, and the list
    becomes the new row in front of the list of the render, not in front of
    the list the reply found. The deleted item is back on the page, and the
    rest of the list is not what it was. *)
Lemma add_after_overlapping_delete :
  let w0 := Page.mkWorld Ex.shown Ex.db_milk [] in
  let w1 := UI.settle Service.supabase Ex.alice_user Ex.shown
                      (UI.ClickDelete Ex.milk)
                      (Ex.delivered (Ex.as_alice 2000 "x")) w0 in
  let w2 := UI.settle Service.supabase Ex.alice_user Ex.shown UI.Submit
                      (Ex.delivered (Ex.as_alice 3000 (id Ex.eggs))) w1 in
  Page.todos (Page.view w1) = [] /\
  Pg.public_todos (Page.server w1) = [] /\
  snd (Page.run_insert Service.supabase
         (Ex.delivered (Ex.as_alice 3000 (id Ex.eggs)))
         (trim (Page.newTodo Ex.shown)) (Some Ex.alice) false (Page.server w1))
  = Page.Fulfilled Ex.eggs /\
  Page.todos (Page.view w2) = [Ex.eggs; Ex.milk] /\
  Pg.public_todos (Page.server w2) = [Ex.eggs] /\
  Page.todos (Page.view w2) <> Ex.eggs :: Page.todos (Page.view w1).
Proof. repeat (split; [reflexivity|]). discriminate. Qed.

(** C5, amended. A submit was raised on a render whose input, trimmed, is
    not empty. When its insert is answered with a row, that very row (the
    one the table now ends with) is put in front of the list of that
    render, which is the list the page holds when no other reply came in
    between, and then the rest of the list is unchanged; the input is
    emptied; the row has the trimmed text for a title, [completed] false,
    and the transaction time of the server for [created_at] and
    [updated_at]. When the insert fails, the input and the list are what
    they were. *)
Theorem add_prepends_to_rendered_list (user : option Auth.User)
        (rendered : Page.View) (env : Service.Env) (w : Page.World Pg.Db) :
  let w' := UI.settle Service.supabase user rendered UI.Submit env w in
  let reply := Page.run_insert Service.supabase env
                               (trim (Page.newTodo rendered))
                               (user_id_of user) false (Page.server w) in
  truthy (trim (Page.newTodo rendered)) = true ->
  (forall data, snd reply = Page.Fulfilled data ->
     Page.todos (Page.view w') = data :: Page.todos rendered /\
     (rendered = Page.view w ->
      Page.todos (Page.view w') = data :: Page.todos (Page.view w)) /\
     Page.newTodo (Page.view w') = [] /\
     Pg.public_todos (Page.server w') = Pg.public_todos (Page.server w) ++ [data] /\
     title data = trim (Page.newTodo rendered) /\
     completed data = false /\
     created_at data = Pg.now (Service.txn env) /\
     updated_at data = Pg.now (Service.txn env)) /\
  (unsuccessful (snd reply) ->
     Page.newTodo (Page.view w') = Page.newTodo (Page.view w) /\
     Page.todos (Page.view w') = Page.todos (Page.view w)).
Proof.
  intros w' reply Ht. subst w'. unfold UI.settle.
  rewrite addTodo_run by done. fold reply.
  destruct reply as [db' r] eqn:Hreply. simpl. split.
  - intros data ->. simpl.
    apply run_insert_fulfilled, insert_Ok in Hreply as (-> & Hrow & _).
    apply not_null_Some in Hrow as (_ & _ & Hti & _ & Hc & Hca & Hua).
    simpl in *. repeat split; congruence.
  - destruct r; simpl; tauto.
Qed.

(** The add of the overlap above, on its own: in front of the list of the
    render. *)
Lemma add_prepends_to_rendered_list_witness :
  let w1 := Page.mkWorld (Page.mkView [] (lit "Buy eggs") false false)
                         Ex.db0 [] in
  Page.todos (Page.view (UI.settle Service.supabase Ex.alice_user Ex.shown
                           UI.Submit
                           (Ex.delivered (Ex.as_alice 3000 (id Ex.eggs))) w1))
  = Ex.eggs :: Page.todos Ex.shown.
Proof.
  intros w1.
  apply (add_prepends_to_rendered_list Ex.alice_user Ex.shown
           (Ex.delivered (Ex.as_alice 3000 (id Ex.eggs))) w1);
    reflexivity.
Defined.

(** C4, as the claim has it, fails. The page still lists Alice's item, the
    table no longer has it. She deletes it: the service answers without an
    error, the item leaves the list and the success toast is shown. She
    ticks it instead: the local flag flips and nothing is reported. *)
Lemma stale_target_is_not_reported :
  let w := Page.mkWorld (Page.mkView [Ex.milk] [] false false) Ex.db0 [] in
  let env := Ex.delivered (Ex.as_alice 2000 "x") in
  UI.handle Service.supabase Ex.alice_user (UI.ClickDelete Ex.milk) env w
  = Page.mkWorld (Page.mkView [] [] false false) Ex.db0
      [Page.Sent (Page.Delete (id Ex.milk) (Some Ex.alice));
       Page.Toast "Success" "Todo deleted successfully!" Page.default_variant]
  /\
  UI.handle Service.supabase Ex.alice_user (UI.CheckedChange Ex.milk) env w
  = Page.mkWorld (Page.mkView [Page.with_completed true Ex.milk] [] false false)
      Ex.db0
      [Page.Sent (Page.Update true (id Ex.milk) (Some Ex.alice))].
Proof. split; reflexivity. Qed.

(** C4, amended. An update or a delete whose target is in the list of the
    page but no longer in the table: the statement changes nothing in the
    table and the service answers without an error, so the handler takes
    its success branch. [toggleTodo] flips the local flag and reports
    nothing; [deleteTodo] removes the local item and shows the success
    toast. The list is not fetched again. *)
Theorem stale_target_takes_success_branch (u : Auth.User) (todo : Todo)
        (tx : Pg.Txn) (w : Page.World Pg.Db) :
  Forall (fun r => id r <> id todo) (Pg.public_todos (Page.server w)) ->
  let env := Service.mkEnv Service.Delivered tx in
  let v := Page.view w in
  UI.handle Service.supabase (Some u) (UI.CheckedChange todo) env w
  = Page.mkWorld
      (Page.mkView (List.map (flip_local (id todo) (completed todo))
                             (Page.todos v))
                   (Page.newTodo v) (Page.loading v) (Page.adding v))
      (Page.server w)
      (Page.effects w ++
         [Page.Sent (Page.Update (negb (completed todo)) (id todo)
                                 (Some (Auth.id u)))])
  /\
  UI.handle Service.supabase (Some u) (UI.ClickDelete todo) env w
  = Page.mkWorld
      (Page.mkView (List.filter (fun t => negb (Page.id_is (id todo) t))
                                (Page.todos v))
                   (Page.newTodo v) (Page.loading v) (Page.adding v))
      (Page.server w)
      (Page.effects w ++
         [Page.Sent (Page.Delete (id todo) (Some (Auth.id u)));
          Page.Toast "Success" "Todo deleted successfully!"
                     Page.default_variant]).
Proof.
  intros Hgone env v. subst env. unfold UI.handle. fold v. split.
  - rewrite toggleTodo_run, run_update_delivered. unfold user_id_of.
    rewrite patch_stale by done. reflexivity.
  - rewrite deleteTodo_run, run_delete_delivered. unfold user_id_of.
    rewrite delete_stale by done. simpl. by rewrite <- app_assoc.
Qed.

Lemma stale_target_takes_success_branch_witness :
  Page.todos (Page.view
    (UI.handle Service.supabase Ex.alice_user (UI.ClickDelete Ex.milk)
       (Service.mkEnv Service.Delivered (Ex.as_alice 2000 "x"))
       (Page.mkWorld (Page.mkView [Ex.milk; Ex.untitled] [] false false)
                     (Pg.mkDb [Ex.alice; Ex.bob] [Ex.untitled]) [])))
  = [Ex.untitled].
Proof.
  destruct (stale_target_takes_success_branch
              (Auth.mkUser Ex.alice "alice@example.org") Ex.milk
              (Ex.as_alice 2000 "x")
              (Page.mkWorld (Page.mkView [Ex.milk; Ex.untitled] [] false false)
                            (Pg.mkDb [Ex.alice; Ex.bob] [Ex.untitled]) []))
    as [_ Hdel].
  - constructor; [discriminate | constructor].
  - unfold Ex.alice_user. rewrite Hdel. reflexivity.
Defined.

(** C6, as the claim has it, fails in its second half. Alice's row carries
    an [updated_at] she supplied when she inserted it, ahead of the clock.
    She ticks it on the page one transaction later: the toggle succeeds and
    the row's [updated_at] is now the transaction time, which is earlier
    than the value it had. *)
Lemma toggle_sets_updated_at_back :
  let db := Pg.mkDb [Ex.alice; Ex.bob] [Ex.postdated] in
  let w := Page.mkWorld (Page.mkView [Ex.postdated] [] false false) db [] in
  let w' := UI.handle Service.supabase Ex.alice_user
                      (UI.CheckedChange Ex.postdated)
                      (Ex.delivered (Ex.as_alice 2000 "x")) w in
  Pg.insert (Ex.as_alice 1000 (id Ex.postdated)) Ex.postdated_body Ex.db0
  = (db, Pg.Ok Ex.postdated) /\
  Page.effects w'
  = [Page.Sent (Page.Update true (id Ex.postdated) (Some Ex.alice))] /\
  Page.todos (Page.view w') = [Page.with_completed true Ex.postdated] /\
  Pg.public_todos (Page.server w')
  = [mkTodo (id Ex.postdated) (title Ex.postdated) None true 1000 2000 Ex.alice]
  /\ ~ (updated_at Ex.postdated < 2000).
Proof.
  repeat (split; [reflexivity|]). unfold Ex.postdated; simpl. lia.
Qed.

Lemma with_completed_twice (c : bool) (todo : Todo) :
  Page.with_completed (negb (negb c)) (Page.with_completed (negb c) todo)
  = Page.with_completed c todo.
Proof. unfold Page.with_completed. simpl. by rewrite negb_involutive. Qed.

Lemma with_completed_same (todo : Todo) :
  Page.with_completed (completed todo) todo = todo.
Proof. by destruct todo. Qed.

Lemma flip_local_hit (c : bool) (todo : Todo) :
  flip_local (id todo) c todo = Page.with_completed (negb c) todo.
Proof. unfold flip_local, Page.id_is. by rewrite String.eqb_refl. Qed.

(** C6, amended. Alice ticks an item of her list twice in a row; both
    updates are delivered with her session and succeed. On the page the
    item is flipped and then back to what it was. In the table her row of
    that id gets the flag the page sent, first the negation and then the
    original, and after each toggle its [updated_at] is the time of that
    transaction: strictly later than before exactly when the value before
    was earlier than the transaction time. Nothing else of the row
    changes. *)
Theorem toggle_twice (u : Auth.User) (todo r : Todo) (tx1 tx2 : Pg.Txn)
        (w : Page.World Pg.Db) (j k : nat) :
  Pg.auth_uid tx1 = Some (Auth.id u) ->
  Pg.auth_uid tx2 = Some (Auth.id u) ->
  Page.todos (Page.view w) !! j = Some todo ->
  Pg.public_todos (Page.server w) !! k = Some r ->
  id r = id todo ->
  user_id r = Auth.id u ->
  let todo1 := Page.with_completed (negb (completed todo)) todo in
  let w1 := UI.handle Service.supabase (Some u) (UI.CheckedChange todo)
                      (Service.mkEnv Service.Delivered tx1) w in
  let w2 := UI.handle Service.supabase (Some u) (UI.CheckedChange todo1)
                      (Service.mkEnv Service.Delivered tx2) w1 in
  Page.todos (Page.view w1) !! j = Some todo1 /\
  Page.todos (Page.view w2) !! j = Some todo /\
  exists r1 r2,
    Pg.public_todos (Page.server w1) !! k = Some r1 /\
    Pg.public_todos (Page.server w2) !! k = Some r2 /\
    r1 = completed_at tx1 (negb (completed todo)) r /\
    r2 = completed_at tx2 (completed todo) r /\
    updated_at r1 = Pg.now tx1 /\
    updated_at r2 = Pg.now tx2 /\
    (updated_at r < updated_at r1 <-> updated_at r < Pg.now tx1) /\
    (updated_at r1 < updated_at r2 <-> Pg.now tx1 < Pg.now tx2).
Proof.
  intros H1 H2 Hj Hk Hid Hu todo1 w1 w2.
  assert (Service.eq_id_user_id (id todo) (Auth.id u) r = true) as Hreach
    by by apply eq_id_user_id_true.
  (* the first toggle *)
  assert (w1 = Page.mkWorld
            (Page.mkView (List.map (flip_local (id todo) (completed todo))
                                   (Page.todos (Page.view w)))
                         (Page.newTodo (Page.view w)) (Page.loading (Page.view w))
                         (Page.adding (Page.view w)))
            (Pg.mkDb (Pg.auth_users (Page.server w))
               (List.map (fun r => if Service.eq_id_user_id (id todo) (Auth.id u) r
                                   then completed_at tx1 (negb (completed todo)) r
                                   else r)
                         (Pg.public_todos (Page.server w))))
            (Page.effects w ++
               [Page.Sent (Page.Update (negb (completed todo)) (id todo)
                                       (Some (Auth.id u)))])) as Hw1.
  { subst w1. unfold UI.handle.
    rewrite toggleTodo_run, run_update_delivered. unfold user_id_of.
    by rewrite patch_delivered. }
  (* the second toggle, from the item as the page now shows it *)
  assert (Page.todos (Page.view w2) =
            List.map (flip_local (id todo) (negb (completed todo)))
                     (Page.todos (Page.view w1)) /\
          Pg.public_todos (Page.server w2) =
            List.map (fun r => if Service.eq_id_user_id (id todo) (Auth.id u) r
                               then completed_at tx2 (completed todo) r else r)
                     (Pg.public_todos (Page.server w1))) as [Hv2 Hs2].
  { subst w2. unfold UI.handle.
    rewrite toggleTodo_run, run_update_delivered. unfold user_id_of.
    rewrite patch_delivered by done. subst todo1. simpl.
    split; [reflexivity | by rewrite negb_involutive]. }
  rewrite Hv2, Hs2, Hw1. simpl.
  split; [|split].
  - erewrite lookup_map by done. by rewrite flip_local_hit.
  - erewrite lookup_map; [|by apply lookup_map].
    rewrite flip_local_hit. unfold flip_local at 1, Page.id_is. simpl.
    rewrite String.eqb_refl, with_completed_twice.
    by rewrite with_completed_same.
  - eexists _, _. split; [by apply (lookup_map _ _ _ _ Hk)|].
    split; [by apply lookup_map, (lookup_map _ _ _ _ Hk)|].
    rewrite Hreach. simpl.
    assert (Service.eq_id_user_id (id todo) (Auth.id u)
              (completed_at tx1 (negb (completed todo)) r) = true) as ->
      by by apply eq_id_user_id_true.
    repeat split; done.
Qed.

(** Alice ticks "Buy milk" at 2000 and again at 3000. *)
Lemma toggle_twice_witness :
  let u := Auth.mkUser Ex.alice "alice@example.org" in
  let w := Page.mkWorld (Page.mkView [Ex.milk] [] false false) Ex.db_milk [] in
  let w1 := UI.handle Service.supabase (Some u) (UI.CheckedChange Ex.milk)
              (Service.mkEnv Service.Delivered (Ex.as_alice 2000 "x")) w in
  let w2 := UI.handle Service.supabase (Some u)
              (UI.CheckedChange (Page.with_completed (negb (completed Ex.milk))
                                                     Ex.milk))
              (Service.mkEnv Service.Delivered (Ex.as_alice 3000 "y")) w1 in
  Page.todos (Page.view w2) !! 0%nat = Some Ex.milk.
Proof.
  intros u w w1 w2.
  apply (toggle_twice u Ex.milk Ex.milk (Ex.as_alice 2000 "x")
           (Ex.as_alice 3000 "y") w 0 0); reflexivity.
Defined.

(* ===================================================================== *)
(** ** More about the store *)
(* ===================================================================== *)

Section Anonymous.
Import Pg.
Variable tx : Txn.
Hypothesis no_session : auth_uid tx = None.

Lemma anonymous_policy r : policy_select tx r = false.
Proof. unfold policy_select. by rewrite no_session. Qed.

Lemma anonymous_filter where_ rows :
  List.filter (fun r => policy_select tx r && where_ r) rows = [].
Proof.
  induction rows as [|r rows IH]; simpl; [done|]. by rewrite anonymous_policy.
Qed.
End Anonymous.

(** X1. A statement that carries no session ([auth.uid()] is NULL) sees
    nothing and changes nothing, whatever its filter or body: SELECT returns
    no row, INSERT ends in a row-level-security error, UPDATE and DELETE
    succeed on zero rows; the table is the same afterwards. *)
Theorem anonymous_sees_and_changes_nothing (tx : Pg.Txn) (db : Pg.Db) :
  Pg.auth_uid tx = None ->
  (forall where_, Pg.select tx where_ db = []) /\
  (forall b, Pg.insert tx b db = (db, Pg.Err Pg.rls_violation)) /\
  (forall b where_, Pg.update tx b where_ db = (db, Pg.Ok 0%nat)) /\
  (forall where_, Pg.delete tx where_ db = (db, Pg.Ok 0%nat)).
Proof.
  intros Hanon. repeat split.
  - intros where_. unfold Pg.select. by rewrite anonymous_filter.
  - intros b. unfold Pg.insert, Pg.policy_insert_check. by rewrite Hanon.
  - intros b where_. unfold Pg.update.
    rewrite update_rows_out_of_reach; [by destruct db|].
    apply List.Forall_forall. intros r _.
    change (Pg.policy_update tx r) with (Pg.policy_select tx r).
    by rewrite anonymous_policy.
  - intros where_. unfold Pg.delete.
    change (fun r => Pg.policy_delete tx r && where_ r)
      with (fun r => Pg.policy_select tx r && where_ r).
    rewrite anonymous_filter by done. rewrite filter_id; [by destruct db|].
    apply List.Forall_forall. intros r _.
    change (Pg.policy_delete tx r) with (Pg.policy_select tx r).
    by rewrite anonymous_policy.
Qed.

Lemma anonymous_sees_and_changes_nothing_witness :
  Pg.delete (Pg.mkTxn None 2000 "x") (fun _ => true) Ex.db_milk
  = (Ex.db_milk, Pg.Ok 0%nat).
Proof.
  apply (anonymous_sees_and_changes_nothing (Pg.mkTxn None 2000 "x") Ex.db_milk).
  reflexivity.
Defined.

(** *** ORDER BY created_at DESC *)

Lemma insert_desc_perm r l : Permutation (r :: l) (Pg.insert_desc r l).
Proof.
  induction l as [|x l IH]; simpl; [done|].
  destruct (created_at x <? created_at r); [done|].
  etransitivity; [apply perm_swap|]. by constructor.
Qed.

Lemma order_by_perm l : Permutation l (Pg.order_by_created_at_desc l).
Proof.
  induction l as [|x l IH]; simpl; [done|].
  etransitivity; [|apply insert_desc_perm]. by constructor.
Qed.

Lemma insert_desc_sorted r l :
  newest_first l -> newest_first (Pg.insert_desc r l).
Proof.
  unfold newest_first. induction 1 as [|x l Hl IH Hx]; simpl.
  - repeat constructor.
  - destruct (created_at x <? created_at r) eqn:Hc.
    + apply Z.ltb_lt in Hc. constructor; [by constructor|].
      constructor; [lia|]. eapply Forall_impl; [exact Hx|]. simpl. intros; lia.
    + apply Z.ltb_ge in Hc. constructor; [done|].
      apply List.Forall_forall. intros y Hy. apply In_insert_desc in Hy as [->|Hy];
        [done|]. rewrite List.Forall_forall in Hx. by apply Hx.
Qed.

Lemma order_by_sorted l : newest_first (Pg.order_by_created_at_desc l).
Proof.
  induction l as [|x l IH]; simpl; [constructor|]. by apply insert_desc_sorted.
Qed.

(** X2. A SELECT ordered by [created_at] descending returns exactly the
    rows of the table that pass both the policy and the caller's filter,
    each as often as the table has it, and lists them newest first. *)
Theorem select_newest_first (tx : Pg.Txn) (where_ : Todo -> bool) (db : Pg.Db) :
  Permutation (Pg.select tx where_ db)
              (List.filter (fun r => Pg.policy_select tx r && where_ r)
                           (Pg.public_todos db)) /\
  newest_first (Pg.select tx where_ db).
Proof.
  unfold Pg.select. split; [symmetry; apply order_by_perm | apply order_by_sorted].
Qed.

(** *** The constraints are kept *)

Lemma pkey_free_spec i rows :
  Pg.pkey_free i rows = true <-> ~ In i (List.map id rows).
Proof.
  unfold Pg.pkey_free. induction rows as [|r rows IH]; simpl; [tauto|].
  rewrite andb_true_iff, IH, negb_true_iff, String.eqb_neq. tauto.
Qed.

Lemma fkey_ok_spec db u : Pg.fkey_ok db u = true <-> In u (Pg.auth_users db).
Proof.
  unfold Pg.fkey_ok. rewrite existsb_exists. split.
  - intros (x & Hx & Heq). apply String.eqb_eq in Heq. by subst.
  - intros H. exists u. by rewrite String.eqb_refl.
Qed.

(** What a successful INSERT has checked. *)
Lemma insert_Ok_constraints tx b db db' r :
  Pg.insert tx b db = (db', Pg.Ok r) ->
  ~ In (id r) (List.map id (Pg.public_todos db)) /\
  In (user_id r) (Pg.auth_users db).
Proof.
  unfold Pg.insert. intros H.
  destruct (Pg.policy_insert_check _ _); simpl in H; [|simplify_eq].
  destruct (Pg.not_null _) as [r0|]; [|simplify_eq].
  destruct (Pg.pkey_free _ _) eqn:Hpk; simpl in H; [|simplify_eq].
  destruct (Pg.fkey_ok _ _) eqn:Hfk; simpl in H; simplify_eq.
  by rewrite <- pkey_free_spec, <- fkey_ok_spec.
Qed.

(** What a successful UPDATE of one row has checked. *)
Lemma update_row_Ok_constraints tx b db old r :
  Pg.update_row tx b db old = Pg.Ok r ->
  (Pg.b_id b = Pg.Omitted -> id r = id old) /\
  (user_id r = user_id old \/ In (user_id r) (Pg.auth_users db)).
Proof.
  intros H. pose proof (update_row_Ok _ _ _ _ _ H) as (Hn & _ & _).
  apply not_null_Some in Hn as (Hid & _). simpl in Hid. split.
  - intros Hb. rewrite Hb in Hid. simpl in Hid. congruence.
  - unfold Pg.update_row in H.
    destruct (Pg.policy_update_check _ _); simpl in H; [|simplify_eq].
    destruct (Pg.not_null _) as [r0|]; [|simplify_eq].
    destruct (_ && _); [simplify_eq|].
    destruct (String.eqb_spec (user_id r0) (user_id old)) as [Heq|Hne];
      simpl in H.
    + simplify_eq. by left.
    + destruct (Pg.fkey_ok db (user_id r0)) eqn:Hfk; simpl in H; simplify_eq.
      right. by apply fkey_ok_spec.
Qed.

Lemma NoDup_map_filter {X Y} (f : X -> Y) (p : X -> bool) (l : list X) :
  NoDup (List.map f l) -> NoDup (List.map f (List.filter p l)).
Proof.
  induction l as [|x l IH]; simpl; [done|].
  intros H. apply NoDup_cons in H as [Hx Hl].
  destruct (p x); simpl; [|by apply IH].
  apply NoDup_cons. split; [|by apply IH].
  intros Hin. apply Hx. apply list_elem_of_In in Hin. apply list_elem_of_In.
  apply in_map_iff in Hin as (y & <- & Hy). apply filter_In in Hy as [Hy _].
  by apply in_map.
Qed.

Lemma update_rows_ids tx b where_ db rows rows' n :
  Pg.b_id b = Pg.Omitted ->
  Pg.update_rows tx b where_ db rows = Pg.Ok (rows', n) ->
  List.map id rows' = List.map id rows.
Proof.
  intros Hb H. apply update_rows_Ok in H.
  induction H as [|old new l l' Hrow _ IH]; simpl; [done|].
  f_equal; [|done]. destruct Hrow as [[-> _]|(_ & _ & Hrow)]; [done|].
  apply update_row_Ok_constraints in Hrow as [Hid _]. by apply Hid.
Qed.

Lemma update_rows_owners tx b where_ db rows rows' n :
  Forall (fun r => In (user_id r) (Pg.auth_users db)) rows ->
  Pg.update_rows tx b where_ db rows = Pg.Ok (rows', n) ->
  Forall (fun r => In (user_id r) (Pg.auth_users db)) rows'.
Proof.
  intros Hfk H. apply update_rows_Ok in H.
  induction H as [|old new l l' Hrow _ IH]; [constructor|].
  apply Forall_cons in Hfk as [Hold Hl]. constructor; [|by apply IH].
  destruct Hrow as [[-> _]|(_ & _ & Hrow)]; [done|].
  apply update_row_Ok_constraints in Hrow as [_ [->|Hin]]; done.
Qed.

(** X3. The constraints of the table survive every statement: if the ids
    of the table are distinct and every owner is in [auth.users], the same
    holds after any INSERT, after any DELETE, and after any UPDATE that does
    not assign the [id] column, whether the statement succeeds or fails. *)
Theorem table_constraints_kept (tx : Pg.Txn) (db : Pg.Db) :
  table_ok db ->
  (forall b, table_ok (fst (Pg.insert tx b db))) /\
  (forall b where_, Pg.b_id b = Pg.Omitted ->
                    table_ok (fst (Pg.update tx b where_ db))) /\
  (forall where_, table_ok (fst (Pg.delete tx where_ db))).
Proof.
  intros [Hkey Hfk]. repeat split.
  - destruct (Pg.insert tx b db) as [db' [r|e]] eqn:H; simpl;
      [|by apply insert_Err in H as ->].
    pose proof (insert_Ok_constraints _ _ _ _ _ H) as [Hfresh _].
    apply insert_Ok in H as (-> & _). simpl.
    rewrite List.map_app. simpl. apply NoDup_app. split; [done|].
    split; [|apply NoDup_singleton].
    intros x Hx Hx'. apply list_elem_of_singleton in Hx' as ->.
    by apply Hfresh, list_elem_of_In.
  - destruct (Pg.insert tx b db) as [db' [r|e]] eqn:H; simpl;
      [|by apply insert_Err in H as ->].
    pose proof (insert_Ok_constraints _ _ _ _ _ H) as [_ Huser].
    apply insert_Ok in H as (-> & _). simpl.
    apply Forall_app. split; [done|]. by constructor.
  - destruct (Pg.update tx b where_ db) as [db' [n|e]] eqn:Hup; simpl;
      [|by apply update_Err in Hup as ->].
    apply update_Ok in Hup as [_ Hup].
    by rewrite (update_rows_ids _ _ _ _ _ _ _ H Hup).
  - destruct (Pg.update tx b where_ db) as [db' [n|e]] eqn:Hup; simpl;
      [|by apply update_Err in Hup as ->].
    apply update_Ok in Hup as [-> Hup]. by eapply update_rows_owners.
  - simpl. by apply NoDup_map_filter.
  - simpl. apply List.Forall_forall. intros r Hr. apply filter_In in Hr as [Hr _].
    rewrite List.Forall_forall in Hfk. by apply Hfk.
Qed.

Lemma table_constraints_kept_witness :
  table_ok (fst (Pg.insert (Ex.as_alice 2000 (id Ex.milk))
                           Ex.postdated_body Ex.db_milk)).
Proof.
  apply (table_constraints_kept (Ex.as_alice 2000 (id Ex.milk)) Ex.db_milk).
  split.
  - simpl. apply NoDup_singleton.
  - constructor; [|constructor]. simpl. by left.
Defined.

(* ===================================================================== *)
(** ** More about the page in front of the table *)
(* ===================================================================== *)

Section Delivered.
Import Page Service.
Variables (u : uuid) (tx : Pg.Txn).
Hypothesis session : Pg.auth_uid tx = Some u.

Lemma session_policy r : Pg.policy_select tx r = owned_by u r.
Proof.
  unfold Pg.policy_select, owned_by. rewrite session. simpl.
  destruct (String.eqb_spec (user_id r) u) as [->|Hne].
  - by rewrite bool_decide_eq_true_2.
  - rewrite bool_decide_eq_false_2; [done|]. congruence.
Qed.

Lemma eq_id_user_id_split i r :
  eq_id_user_id i u r = id_is i r && owned_by u r.
Proof. reflexivity. Qed.

(** The GET of [fetchTodos], delivered with the session of [u]. *)
Lemma get_delivered db :
  get tx (Some u) db
  = (db, Fulfilled (Some (Pg.order_by_created_at_desc (rows_of u db)))).
Proof.
  unfold get, Pg.select, rows_of. do 4 f_equal. apply filter_ext.
  intros r. rewrite session_policy. unfold eq_user_id, owned_by.
  by destruct (String.eqb (user_id r) u).
Qed.

(** The DELETE of [deleteTodo], delivered with the session of [u]. *)
Lemma delete_delivered i db :
  delete tx i (Some u) db
  = (Pg.mkDb (Pg.auth_users db)
             (List.filter (fun r => negb (id_is i r && owned_by u r))
                          (Pg.public_todos db)),
     Fulfilled tt).
Proof.
  unfold delete, Pg.delete. simpl. do 2 f_equal. apply filter_ext.
  intros r. change (Pg.policy_delete tx r) with (Pg.policy_select tx r).
  rewrite session_policy, eq_id_user_id_split.
  by destruct (owned_by u r), (id_is i r).
Qed.
End Delivered.

Lemma run_select_delivered tx u db :
  Page.run_select Service.supabase (Service.mkEnv Service.Delivered tx) u db
  = Service.get tx u db.
Proof. reflexivity. Qed.

(** X4. The page becomes active for a signed-in user and the request is
    delivered with that user's session. Then the list of the page holds
    exactly the rows the user owns in the table, newest first; the loading
    flag is down; the table is as it was. *)
Theorem fetch_mirrors_table (u : Auth.User) (tx : Pg.Txn) (w : Page.World Pg.Db) :
  Pg.auth_uid tx = Some (Auth.id u) ->
  let w' := UI.handle Service.supabase (Some u) UI.Activated
                      (Service.mkEnv Service.Delivered tx) w in
  Permutation (Page.todos (Page.view w')) (rows_of (Auth.id u) (Page.server w)) /\
  newest_first (Page.todos (Page.view w')) /\
  Page.loading (Page.view w') = false /\
  Page.server w' = Page.server w /\
  in_sync (Auth.id u) w'.
Proof.
  intros Hs w'. subst w'. unfold UI.handle.
  rewrite fetchTodos_run, run_select_delivered. unfold user_id_of.
  rewrite (get_delivered _ _ Hs). simpl.
  pose proof (order_by_perm (rows_of (Auth.id u) (Page.server w))) as Hperm.
  repeat split.
  - by symmetry.
  - apply order_by_sorted.
  - unfold in_sync. simpl. apply Permutation_map. by symmetry.
Qed.

Lemma fetch_mirrors_table_witness :
  Page.todos (Page.view
    (UI.handle Service.supabase Ex.alice_user UI.Activated
               (Service.mkEnv Service.Delivered (Ex.as_alice 2000 "x"))
               (Page.mkWorld Page.initial Ex.db_milk [])))
  = [Ex.milk]
  /\ in_sync Ex.alice
       (UI.handle Service.supabase Ex.alice_user UI.Activated
                  (Service.mkEnv Service.Delivered (Ex.as_alice 2000 "x"))
                  (Page.mkWorld Page.initial Ex.db_milk [])).
Proof.
  split; [reflexivity|].
  apply (fetch_mirrors_table (Auth.mkUser Ex.alice "alice@example.org")
           (Ex.as_alice 2000 "x") (Page.mkWorld Page.initial Ex.db_milk [])).
  reflexivity.
Defined.

(** X5. A toggle delivered with the user's session never fails, and in the
    table it touches only the rows of that id the user owns: such a row
    gets the flag the page sent and the transaction time for [updated_at],
    its other columns stay; every other row, and [auth.users], stay as they
    were. *)
Theorem toggle_on_server (u : Auth.User) (todo : Todo) (tx : Pg.Txn)
        (w : Page.World Pg.Db) :
  Pg.auth_uid tx = Some (Auth.id u) ->
  let w' := UI.handle Service.supabase (Some u) (UI.CheckedChange todo)
                      (Service.mkEnv Service.Delivered tx) w in
  Page.effects w' =
    Page.effects w ++ [Page.Sent (Page.Update (negb (completed todo)) (id todo)
                                              (Some (Auth.id u)))] /\
  Pg.auth_users (Page.server w') = Pg.auth_users (Page.server w) /\
  Forall2 (fun old new =>
             (id old = id todo /\ user_id old = Auth.id u ->
              new = completed_at tx (negb (completed todo)) old) /\
             (~ (id old = id todo /\ user_id old = Auth.id u) -> new = old))
          (Pg.public_todos (Page.server w))
          (Pg.public_todos (Page.server w')).
Proof.
  intros Hs w'. subst w'. unfold UI.handle.
  rewrite toggleTodo_run, run_update_delivered. unfold user_id_of.
  rewrite patch_delivered by done. simpl. repeat split.
  induction (Pg.public_todos (Page.server w)) as [|r rows IH]; simpl;
    constructor; [|done].
  destruct (Service.eq_id_user_id (id todo) (Auth.id u) r) eqn:Hr.
  - split; [done|]. intros Hn. apply eq_id_user_id_true in Hr. tauto.
  - split; [|done]. intros Hy. apply eq_id_user_id_true in Hy. congruence.
Qed.

Lemma toggle_on_server_witness :
  Pg.auth_users (Page.server
    (UI.handle Service.supabase Ex.alice_user (UI.CheckedChange Ex.milk)
               (Service.mkEnv Service.Delivered (Ex.as_alice 2000 "x"))
               (Page.mkWorld (Page.mkView [Ex.milk] [] false false)
                             Ex.db_milk [])))
  = [Ex.alice; Ex.bob].
Proof.
  apply (toggle_on_server (Auth.mkUser Ex.alice "alice@example.org") Ex.milk
           (Ex.as_alice 2000 "x")
           (Page.mkWorld (Page.mkView [Ex.milk] [] false false) Ex.db_milk [])).
  reflexivity.
Defined.

Lemma filter_spec_Forall {X} (p : X -> bool) (l : list X) :
  Forall (fun x => p x = true) (List.filter p l).
Proof. apply List.Forall_forall. intros x Hx. by apply filter_In in Hx as [_ ?]. Qed.

(** X6. A delete delivered with the user's session never fails. It removes
    from the table the rows of that id the user owns and keeps every other
    row, in order. On the page it replaces the list by the list of the
    render the delete was raised on, without the items of that id and with
    the others in order; that is the list the page holds without those
    items when no other reply came in between. The success toast is
    shown. *)
Theorem delete_removes_target (u : Auth.User) (rendered : Page.View)
        (todo : Todo) (tx : Pg.Txn) (w : Page.World Pg.Db) :
  Pg.auth_uid tx = Some (Auth.id u) ->
  let w' := UI.settle Service.supabase (Some u) rendered (UI.ClickDelete todo)
                      (Service.mkEnv Service.Delivered tx) w in
  Pg.public_todos (Page.server w') =
    List.filter (fun r => negb (Page.id_is (id todo) r && owned_by (Auth.id u) r))
                (Pg.public_todos (Page.server w)) /\
  Pg.auth_users (Page.server w') = Pg.auth_users (Page.server w) /\
  Page.todos (Page.view w') =
    List.filter (fun t => negb (Page.id_is (id todo) t)) (Page.todos rendered) /\
  (rendered = Page.view w ->
   Page.todos (Page.view w') =
     List.filter (fun t => negb (Page.id_is (id todo) t))
                 (Page.todos (Page.view w))) /\
  Forall (fun r => ~ (id r = id todo /\ user_id r = Auth.id u))
         (Pg.public_todos (Page.server w')) /\
  Forall (fun t => id t <> id todo) (Page.todos (Page.view w')) /\
  Page.effects w' =
    Page.effects w ++ [Page.Sent (Page.Delete (id todo) (Some (Auth.id u)));
                       Page.Toast "Success" "Todo deleted successfully!"
                                  Page.default_variant].
Proof.
  intros Hs w'. subst w'. unfold UI.settle.
  rewrite deleteTodo_run, run_delete_delivered. unfold user_id_of.
  rewrite (delete_delivered _ _ Hs). simpl. repeat split.
  - by intros ->.
  - eapply Forall_impl; [apply filter_spec_Forall|]. simpl. intros r Hr [Hi Ho].
    apply negb_true_iff, andb_false_iff in Hr as [Hr|Hr].
    + unfold Page.id_is in Hr. apply String.eqb_neq in Hr. done.
    + by apply owned_by_false in Hr.
  - eapply Forall_impl; [apply filter_spec_Forall|]. simpl. intros t Ht.
    apply negb_true_iff in Ht. unfold Page.id_is in Ht.
    by apply String.eqb_neq in Ht.
  - by rewrite <- app_assoc.
Qed.

(** The delete was raised while the page showed both items; by the time it
    is answered the page holds neither. *)
Lemma delete_removes_target_witness :
  let w := Page.mkWorld (Page.mkView [] [] false false)
                        (Pg.mkDb [Ex.alice; Ex.bob] [Ex.untitled; Ex.milk]) [] in
  let w' := UI.settle Service.supabase Ex.alice_user
                      (Page.mkView [Ex.untitled; Ex.milk] [] false false)
                      (UI.ClickDelete Ex.milk)
                      (Service.mkEnv Service.Delivered (Ex.as_alice 2000 "x")) w in
  Pg.public_todos (Page.server w') = [Ex.untitled] /\
  Page.todos (Page.view w') = [Ex.untitled].
Proof.
  intros w w'.
  destruct (delete_removes_target (Auth.mkUser Ex.alice "alice@example.org")
              (Page.mkView [Ex.untitled; Ex.milk] [] false false)
              Ex.milk (Ex.as_alice 2000 "x") w)
    as (Hrows & _ & Hlist & _); [reflexivity|].
  subst w'. unfold Ex.alice_user. rewrite Hrows, Hlist. split; reflexivity.
Defined.

(** *** Nobody is signed in *)

Lemma post_no_user tx t c db :
  Service.post tx t None c db
  = (db, Page.Failed (Page.pg_error Pg.rls_violation)).
Proof.
  unfold Service.post, Pg.insert, Pg.policy_insert_check. simpl.
  by destruct (Pg.auth_uid tx).
Qed.

(** X7. With no signed-in user ([user] is null) the page cannot touch the
    table nor its own list, whatever the network does: becoming active does
    nothing at all, and the request of a submit, a toggle or a delete is
    refused by the service, so both the table and the list stay as they
    were. *)
Theorem no_user_no_effect (ev : UI.Event) (env : Service.Env)
        (w : Page.World Pg.Db) :
  let w' := UI.handle Service.supabase None ev env w in
  Page.server w' = Page.server w /\
  Page.todos (Page.view w') = Page.todos (Page.view w) /\
  (ev = UI.Activated -> w' = w).
Proof.
  destruct ev as [| |todo|todo]; simpl.
  - done.
  - destruct (truthy (trim (Page.newTodo (Page.view w)))) eqn:Ht.
    + rewrite addTodo_run by done. simpl. unfold Service.over_network.
      rewrite post_no_user. by destruct (Service.net env).
    + apply truthy_false in Ht. by rewrite addTodo_rejected.
  - rewrite toggleTodo_run. simpl. unfold Service.over_network.
    by destruct (Service.net env).
  - rewrite deleteTodo_run. simpl. unfold Service.over_network.
    by destruct (Service.net env).
Qed.

(* ===================================================================== *)
(** ** More about the page, against any service *)
(* ===================================================================== *)

(** X8. How a failure is reported, whatever the service. When the request
    of a handler is answered with an error, the handler shows one
    destructive toast that names the action and logs to the console. When
    the awaited promise rejects, the handler only logs to the console: no
    toast is shown. In both cases nothing else is emitted after the
    request. *)
Theorem failure_is_reported {Env Srv : Type} (supabase : Page.Supabase Env Srv)
        (user : option Auth.User) (cl_todos : list Todo) (cl_newTodo : jsstring)
        (env : Env) (w : Page.World Srv) :
  let uid := user_id_of user in
  reported (Page.effects w ++ [Page.Sent (Page.Select uid)])
         "Failed to fetch todos" "Error fetching todos:"
           (snd (Page.run_select supabase env uid (Page.server w)))
           (snd (Page.fetchTodos supabase user env w)) /\
  (truthy (trim cl_newTodo) = true ->
   reported (Page.effects w ++
               [Page.PreventDefault;
                Page.Sent (Page.InsertSingle (trim cl_newTodo) uid false)])
            "Failed to add todo" "Error adding todo:"
            (snd (Page.run_insert supabase env (trim cl_newTodo) uid false
                                  (Page.server w)))
            (snd (Page.addTodo supabase user cl_todos cl_newTodo env w))) /\
  (forall i c,
     reported (Page.effects w ++ [Page.Sent (Page.Update (negb c) i uid)])
              "Failed to update todo" "Error updating todo:"
              (snd (Page.run_update supabase env (negb c) i uid (Page.server w)))
              (snd (Page.toggleTodo supabase user cl_todos i c env w))) /\
  (forall i,
     reported (Page.effects w ++ [Page.Sent (Page.Delete i uid)])
              "Failed to delete todo" "Error deleting todo:"
              (snd (Page.run_delete supabase env i uid (Page.server w)))
              (snd (Page.deleteTodo supabase user cl_todos i env w))).
Proof.
  unfold reported. simpl. repeat split.
  - rewrite fetchTodos_run.
    destruct (Page.run_select _ _ _ _) as [s' [data|e|]]; simpl;
      by rewrite <- ?app_assoc.
  - intros Ht. rewrite addTodo_run by done.
    destruct (Page.run_insert _ _ _ _ _ _) as [s' [data|e|]]; simpl;
      by rewrite <- ?app_assoc.
  - intros i c. rewrite toggleTodo_run.
    destruct (Page.run_update _ _ _ _ _ _) as [s' [data|e|]]; simpl;
      by rewrite <- ?app_assoc.
  - intros i. rewrite deleteTodo_run.
    destruct (Page.run_delete _ _ _ _ _) as [s' [data|e|]]; simpl;
      by rewrite <- ?app_assoc.
Qed.

(** The service cannot be reached while Alice submits "Buy milk". *)
Lemma failure_is_reported_witness :
  Page.effects (snd (Page.addTodo Service.supabase Ex.alice_user [] (lit "Buy milk")
     (Service.mkEnv Service.Unreachable (Ex.as_alice 2000 "x"))
     (Page.mkWorld (Page.mkView [] (lit "Buy milk") false false) Ex.db0 [])))
  = [] ++ [Page.PreventDefault;
           Page.Sent (Page.InsertSingle (trim (lit "Buy milk")) (Some Ex.alice)
                                        false)]
       ++ [Page.Toast "Error" "Failed to add todo" Page.destructive;
           Page.ConsoleError "Error adding todo:"].
Proof.
  apply (failure_is_reported Service.supabase Ex.alice_user [] (lit "Buy milk")
           (Service.mkEnv Service.Unreachable (Ex.as_alice 2000 "x"))
           (Page.mkWorld (Page.mkView [] (lit "Buy milk") false false) Ex.db0 [])).
  reflexivity.
Defined.

(** X9. Whatever the service, one event of the page sends at most one
    query, and what was emitted before the event is still there, in front
    of what the event adds. *)
Theorem one_query_per_event {Env Srv : Type} (supabase : Page.Supabase Env Srv)
        (user : option Auth.User) (ev : UI.Event) (env : Env)
        (w : Page.World Srv) :
  exists new,
    Page.effects (UI.handle supabase user ev env w) = Page.effects w ++ new /\
    (sent_count new <= 1)%nat.
Proof.
  destruct ev as [| |todo|todo]; unfold UI.handle.
  - destruct user as [u|]; [|exists []; split; [by rewrite app_nil_r | cbv; lia]].
    rewrite fetchTodos_run.
    destruct (Page.run_select _ _ _ _) as [s' [data|e|]]; simpl;
      rewrite <- ?app_assoc; eexists; (split; [reflexivity | cbv; lia]).
  - destruct (truthy (trim (Page.newTodo (Page.view w)))) eqn:Ht.
    + rewrite addTodo_run by done.
      destruct (Page.run_insert _ _ _ _ _ _) as [s' [data|e|]]; simpl;
        rewrite <- ?app_assoc; eexists; (split; [reflexivity | cbv; lia]).
    + apply truthy_false in Ht. rewrite addTodo_rejected by done. simpl.
      rewrite <- ?app_assoc; eexists; (split; [reflexivity | cbv; lia]).
  - rewrite toggleTodo_run.
    destruct (Page.run_update _ _ _ _ _ _) as [s' [data|e|]]; simpl;
      rewrite <- ?app_assoc; eexists; (split; [reflexivity | cbv; lia]).
  - rewrite deleteTodo_run.
    destruct (Page.run_delete _ _ _ _ _) as [s' [data|e|]]; simpl;
      rewrite <- ?app_assoc; eexists; (split; [reflexivity | cbv; lia]).
Qed.

(** X10. Whatever the service and the reply: once the loading screen is
    gone no event brings it back, an event that finds the submit button
    enabled leaves it enabled, and becoming active for a signed-in user
    always ends with the loading screen gone. *)
Theorem loading_screen_never_returns {Env Srv : Type}
        (supabase : Page.Supabase Env Srv) (user : option Auth.User)
        (ev : UI.Event) (env : Env) (w : Page.World Srv) :
  let w' := UI.handle supabase user ev env w in
  (Render.render user (Page.view w) <> Render.LoadingScreen ->
   Render.render user (Page.view w') <> Render.LoadingScreen) /\
  (Page.adding (Page.view w) = false -> Page.adding (Page.view w') = false) /\
  (ev = UI.Activated -> user <> None ->
   Render.render user (Page.view w') <> Render.LoadingScreen).
Proof.
  assert (forall v, Render.render user v <> Render.LoadingScreen
                    <-> Page.loading v = false) as Hr.
  { intros v. unfold Render.render. destruct (Page.loading v); split; congruence. }
  simpl. rewrite !Hr.
  destruct ev as [| |todo|todo]; unfold UI.handle.
  - destruct user as [u|]; [|by repeat split].
    rewrite fetchTodos_run.
    destruct (Page.run_select _ _ _ _) as [s' [data|e|]]; simpl;
      rewrite ?Hr; by repeat split.
  - destruct (truthy (trim (Page.newTodo (Page.view w)))) eqn:Ht.
    + rewrite addTodo_run by done.
      destruct (Page.run_insert _ _ _ _ _ _) as [s' [data|e|]]; simpl;
        by repeat split.
    + apply truthy_false in Ht. rewrite addTodo_rejected by done.
      by repeat split.
  - rewrite toggleTodo_run.
    destruct (Page.run_update _ _ _ _ _ _) as [s' [data|e|]]; simpl;
      by repeat split.
  - rewrite deleteTodo_run.
    destruct (Page.run_delete _ _ _ _ _) as [s' [data|e|]]; simpl;
      by repeat split.
Qed.

(** *** The stats card *)

Lemma filter_split_length {X} (p : X -> bool) (l : list X) :
  length l = (length (List.filter p l)
              + length (List.filter (fun x => negb (p x)) l))%nat.
Proof.
  induction l as [|x l IH]; simpl; [done|]. destruct (p x); simpl; lia.
Qed.

(** X11. Once loaded, the page shows either the "No todos yet" card and no
    stats, when the list is empty, or one card per item, in the order of
    the list, and the stats; the numbers of the stats add up: completed
    plus remaining is the total, which is the length of the list. *)
Theorem stats_add_up (user : option Auth.User) (v : Page.View) :
  Page.loading v = false ->
  exists welcome label area footer,
    Render.render user v
    = Render.TodosScreen welcome (Page.adding v) label area footer /\
    ((Page.todos v = [] /\ area = Render.NoTodosYet /\ footer = None) \/
     (Page.todos v <> [] /\ area = Render.Cards (Page.todos v) /\
      exists s, footer = Some s /\
                Render.total s = length (Page.todos v) /\
                Render.total s
                = (Render.completed_count s + Render.remaining s)%nat)).
Proof.
  intros Hl. unfold Render.render. rewrite Hl.
  eexists _, _, _, _. split; [reflexivity|].
  generalize (Page.todos v). intros [|t l]; [by left|right].
  split; [done|]. split; [reflexivity|].
  unfold Render.stats. change (0 <? length (t :: l))%nat with true. cbv iota.
  eexists. split; [reflexivity|].
  cbn [Render.total Render.completed_count Render.remaining].
  split; [done|]. apply (filter_split_length (fun t => completed t) (t :: l)).
Qed.

Lemma stats_add_up_witness :
  exists welcome label area footer,
    Render.render Ex.alice_user (Page.mkView [Ex.milk; Ex.untitled] [] false false)
    = Render.TodosScreen welcome false label area footer /\
    (([Ex.milk; Ex.untitled] = [] /\ area = Render.NoTodosYet /\ footer = None) \/
     ([Ex.milk; Ex.untitled] <> [] /\
      area = Render.Cards [Ex.milk; Ex.untitled] /\
      exists s, footer = Some s /\
                Render.total s = 2%nat /\
                Render.total s
                = (Render.completed_count s + Render.remaining s)%nat)).
Proof.
  apply (stats_add_up Ex.alice_user
           (Page.mkView [Ex.milk; Ex.untitled] [] false false)).
  reflexivity.
Defined.

Lemma flip_local_miss i c (l : list Todo) :
  ~ In i (List.map id l) -> List.map (flip_local i c) l = l.
Proof.
  induction l as [|t l IH]; simpl; [done|]. intros H.
  rewrite IH by tauto. f_equal. unfold flip_local, Page.id_is.
  destruct (String.eqb_spec (id t) i); [|done]. tauto.
Qed.

(** X12. Whatever the service: the user ticks an item of a render whose
    ids are distinct, and the toggle succeeds. Compared with the list of
    that render (the list the page holds when no other reply came in
    between), the list the toggle leaves has exactly one item moved between
    "completed" and "remaining": an item that was open makes the completed
    count one more, an item that was completed makes it one less; the total
    stays. *)
Theorem toggle_moves_one {Env Srv : Type} (supabase : Page.Supabase Env Srv)
        (user : option Auth.User) (rendered : Page.View) (todo : Todo)
        (env : Env) (w : Page.World Srv) :
  NoDup (List.map id (Page.todos rendered)) ->
  In todo (Page.todos rendered) ->
  (exists u, snd (Page.run_update supabase env (negb (completed todo)) (id todo)
                                  (user_id_of user) (Page.server w))
             = Page.Fulfilled u) ->
  let before := Page.todos rendered in
  let after :=
    Page.todos (Page.view (UI.settle supabase user rendered
                                     (UI.CheckedChange todo) env w)) in
  let count l := length (List.filter (fun t => completed t) l) in
  length after = length before /\
  (completed todo = false -> count after = S (count before)) /\
  (completed todo = true -> S (count after) = count before).
Proof.
  intros Hnd Hin [r Hr]. simpl. rewrite toggleTodo_run.
  destruct (Page.run_update _ _ _ _ _ _) as [s' r']. simpl in Hr. subst r'. simpl.
  split; [by rewrite length_map|].
  apply in_split in Hin as (l1 & l2 & Hl). rewrite Hl in *.
  rewrite List.map_app in Hnd. simpl in Hnd.
  apply NoDup_app in Hnd as (_ & Hdisj & Hnd2).
  apply NoDup_cons in Hnd2 as [Hnot2 _].
  assert (~ In (id todo) (List.map id l1)) as Hnot1.
  { intros H1. apply (Hdisj (id todo)); [by apply list_elem_of_In|]. left. }
  assert (~ In (id todo) (List.map id l2)) as Hnot2'
    by (intros H2; by apply Hnot2, list_elem_of_In).
  change (fun todo0 : Todo =>
            if Page.id_is (id todo) todo0
            then Page.with_completed (negb (completed todo)) todo0
            else todo0)
    with (flip_local (id todo) (completed todo)).
  rewrite List.map_app. simpl.
  rewrite !flip_local_miss by done. rewrite flip_local_hit.
  rewrite !List.filter_app, !length_app. simpl.
  split; intros ->; simpl; lia.
Qed.

Lemma toggle_moves_one_witness :
  length (List.filter (fun t => completed t)
    (Page.todos (Page.view
       (UI.settle Service.supabase Ex.alice_user
                  (Page.mkView [Ex.untitled; Ex.milk] [] false false)
                  (UI.CheckedChange Ex.milk)
                  (Ex.delivered (Ex.as_alice 2000 "x"))
                  (Page.mkWorld (Page.mkView [Ex.untitled; Ex.milk] [] false false)
                                Ex.db_milk [])))))
  = 1%nat.
Proof.
  apply (toggle_moves_one Service.supabase Ex.alice_user
           (Page.mkView [Ex.untitled; Ex.milk] [] false false) Ex.milk
           (Ex.delivered (Ex.as_alice 2000 "x"))
           (Page.mkWorld (Page.mkView [Ex.untitled; Ex.milk] [] false false)
                         Ex.db_milk [])).
  - simpl. apply NoDup_cons. split.
    + intros H. apply list_elem_of_singleton in H. discriminate.
    + apply NoDup_singleton.
  - right. by left.
  - exists tt. reflexivity.
  - reflexivity.
Defined.

(* ===================================================================== *)
(** ** What a submit stores *)
(* ===================================================================== *)

Lemma trimStart_split (s : jsstring) :
  exists pre, s = pre ++ trimStart s /\ forallb isWhiteSpace pre = true.
Proof.
  induction s as [|c s (pre & Hs & Hpre)]; simpl; [by exists []|].
  destruct (isWhiteSpace c) eqn:Hc; [|by exists []].
  exists (c :: pre). simpl. rewrite Hc, Hpre. split; [by f_equal|done].
Qed.

Lemma trimEnd_split (s : jsstring) :
  exists post, s = trimEnd s ++ post /\ forallb isWhiteSpace post = true.
Proof.
  destruct (trimStart_split (rev s)) as (pre & Hs & Hpre).
  exists (rev pre). split; [|by rewrite forallb_rev].
  unfold trimEnd. rewrite <- rev_app_distr, <- Hs. by rewrite rev_involutive.
Qed.

(** [trim] cuts white space off both ends and nothing else. *)
Lemma trim_split (s : jsstring) :
  exists pre post,
    s = pre ++ trim s ++ post /\
    forallb isWhiteSpace pre = true /\ forallb isWhiteSpace post = true.
Proof.
  destruct (trimStart_split s) as (pre & Hs & Hpre).
  destruct (trimEnd_split (trimStart s)) as (post & Ht & Hpost).
  exists pre, post. unfold trim. by rewrite <- Ht.
Qed.

Lemma trim_clean (s : jsstring) : trim s <> [] -> clean_title (trim s).
Proof.
  intros Hne. split; [done|]. split.
  - intros c rest Hc.
    destruct (trimEnd_split (trimStart s)) as (post & Ht & _).
    fold (trim s) in Ht. rewrite Hc in Ht. simpl in Ht.
    by apply trimStart_head in Ht.
  - intros c rest Hc. unfold trim, trimEnd in Hc.
    apply (f_equal (@rev N)) in Hc. rewrite rev_involutive, rev_app_distr in Hc.
    simpl in Hc. by apply trimStart_head in Hc.
Qed.

Lemma truthy_true (s : jsstring) : truthy s = true <-> s <> [].
Proof. by destruct s. Qed.

(** The table after the page's insert went through the network: as it
    was, or with the one row the INSERT made. *)
Lemma run_insert_table env t u c db :
  let db' := fst (Page.run_insert Service.supabase env t u c db) in
  db' = db \/
  exists r, Pg.insert (Service.txn env) (Service.insert_body t u c) db
            = (db', Pg.Ok r).
Proof.
  simpl. unfold Service.over_network, Service.post.
  destruct (Service.net env);
    destruct (Pg.insert _ _ _) as [db'' [r|e]] eqn:H; simpl; eauto;
    left; by apply insert_Err in H.
Qed.

(** X13. Whatever the network does and whoever is signed in: a row that a
    submit adds to the table has the trimmed input for a title. That title
    is not empty, has no white space at either end, and is the input with
    only white space cut off in front and behind; the row is not
    completed. Every other row of the table was there before. *)
Theorem stored_title_is_trimmed (user : option Auth.User) (env : Service.Env)
        (w : Page.World Pg.Db) (r : Todo) :
  let input := Page.newTodo (Page.view w) in
  let w' := UI.handle Service.supabase user UI.Submit env w in
  In r (Pg.public_todos (Page.server w')) ->
  In r (Pg.public_todos (Page.server w)) \/
  (clean_title (title r) /\
   completed r = false /\
   exists pre post,
     input = pre ++ title r ++ post /\
     forallb isWhiteSpace pre = true /\ forallb isWhiteSpace post = true).
Proof.
  simpl. intros Hin.
  destruct (truthy (trim (Page.newTodo (Page.view w)))) eqn:Ht.
  - rewrite addTodo_run in Hin by done.
    pose proof (run_insert_table env (trim (Page.newTodo (Page.view w)))
                  (user_id_of user) false (Page.server w)) as Htable.
    destruct (Page.run_insert _ _ _ _ _ _) as [s' reply]. simpl in Htable.
    assert (In r (Pg.public_todos s')) as Hin'
      by (destruct reply; exact Hin).
    destruct Htable as [->|(r0 & Hins)]; [by left|].
    apply insert_Ok in Hins as (-> & Hrow & _). simpl in Hin'.
    apply in_app_or in Hin' as [?|[<-|[]]]; [by left|right].
    apply not_null_Some in Hrow as (_ & _ & Hti & _ & Hc & _).
    simpl in Hti, Hc. injection Hti as Hti. injection Hc as Hc.
    rewrite <- Hti, <- Hc. split; [|split; [done|]].
    + apply trim_clean. by apply truthy_true.
    + apply trim_split.
  - apply truthy_false in Ht. rewrite addTodo_rejected in Hin by done. by left.
Qed.

Lemma stored_title_is_trimmed_witness :
  In Ex.milk Ex.db0.(Pg.public_todos) \/
  (clean_title (title Ex.milk) /\
   completed Ex.milk = false /\
   exists pre post,
     lit "  Buy milk " = pre ++ title Ex.milk ++ post /\
     forallb isWhiteSpace pre = true /\ forallb isWhiteSpace post = true).
Proof.
  apply (stored_title_is_trimmed Ex.alice_user
           (Ex.delivered (Ex.as_alice 1000 (id Ex.milk)))
           (Page.mkWorld (Page.mkView [] (lit "  Buy milk ") false false)
                         Ex.db0 [])
           Ex.milk).
  simpl. by left.
Defined.

(** X14. The row an add creates. A POST of the page delivered for user [u]
    with a title the store can hold as text succeeds when the session is
    that of [u], the generated id is not yet a key of the table and [u] is
    in [auth.users]. A POST that succeeds had all three, and the row it
    appends and returns has the generated id, the title sent, no
    description, [completed] false, the transaction time for both stamps,
    and [u] for an owner. *)
Theorem add_creates_row (tx : Pg.Txn) (t : jsstring) (u : uuid) (db : Pg.Db) :
  let r := mkTodo (Pg.gen_random_uuid tx) t None false (Pg.now tx) (Pg.now tx) u in
  (pg_text t = true ->
   Pg.auth_uid tx = Some u ->
   ~ In (Pg.gen_random_uuid tx) (List.map id (Pg.public_todos db)) ->
   In u (Pg.auth_users db) ->
   Service.post tx t (Some u) false db
   = (Pg.mkDb (Pg.auth_users db) (Pg.public_todos db ++ [r]), Page.Fulfilled r)) /\
  (forall db' r',
     Service.post tx t (Some u) false db = (db', Page.Fulfilled r') ->
     r' = r /\
     Pg.auth_uid tx = Some u /\
     ~ In (Pg.gen_random_uuid tx) (List.map id (Pg.public_todos db)) /\
     In u (Pg.auth_users db)).
Proof.
  simpl. split.
  - intros _ Hs Hfresh Hu. unfold Service.post, Pg.insert, Pg.policy_insert_check.
    simpl. rewrite Hs. simpl. rewrite bool_decide_eq_true_2 by done. simpl.
    apply pkey_free_spec in Hfresh. apply fkey_ok_spec in Hu.
    by rewrite Hfresh, Hu.
  - intros db' r' H. unfold Service.post in H.
    destruct (Pg.insert _ _ _) as [db'' [r0|e]] eqn:Hins; simplify_eq.
    pose proof (insert_Ok_constraints _ _ _ _ _ Hins) as [Hfresh Hu].
    apply insert_Ok in Hins as (_ & Hrow & Hs).
    apply not_null_Some in Hrow as (Hi & Hu' & Hti & Hd & Hc & Hca & Hua).
    simpl in *. destruct r' as [i' t' d' c' ca' ua' u']. simpl in *.
    simplify_eq. done.
Qed.

Lemma add_creates_row_witness :
  Service.post (Ex.as_alice 1000 (id Ex.milk)) (lit "Buy milk") (Some Ex.alice)
               false Ex.db0
  = (Ex.db_milk, Page.Fulfilled Ex.milk).
Proof.
  apply (add_creates_row (Ex.as_alice 1000 (id Ex.milk)) (lit "Buy milk")
           Ex.alice Ex.db0).
  - reflexivity.
  - reflexivity.
  - simpl. tauto.
  - simpl. by left.
Defined.

(* ===================================================================== *)
(** ** The list mirrors the table *)
(* ===================================================================== *)

Lemma filter_map_comm {X} (p : X -> bool) (g : X -> X) (l : list X) :
  (forall x, p (g x) = p x) ->
  List.filter p (List.map g l) = List.map g (List.filter p l).
Proof.
  intros Hp. induction l as [|x l IH]; simpl; [done|].
  rewrite Hp. destruct (p x); simpl; by rewrite IH.
Qed.

Lemma map_filter_key {X K} (f : X -> K) (q : K -> bool) (l : list X) :
  List.map f (List.filter (fun x => q (f x)) l) = List.filter q (List.map f l).
Proof.
  induction l as [|x l IH]; simpl; [done|]. destruct (q (f x)); simpl; by rewrite IH.
Qed.

Lemma Permutation_filter_bool {X} (p : X -> bool) (l l' : list X) :
  Permutation l l' -> Permutation (List.filter p l) (List.filter p l').
Proof.
  induction 1 as [|x l l' _ IH|x y l|l l' l'' _ IH1 _ IH2]; simpl.
  - constructor.
  - destruct (p x); [by constructor|done].
  - destruct (p x), (p y); try done. apply perm_swap.
  - by etransitivity.
Qed.

Lemma but_stamp_flip_local i c t :
  but_stamp (flip_local i c t) = set_flag i (negb c) (but_stamp t).
Proof.
  unfold flip_local, Page.id_is, set_flag, but_stamp.
  by destruct (String.eqb (id t) i).
Qed.

Lemma activated_in_sync (u : Auth.User) (tx : Pg.Txn) (w : Page.World Pg.Db) :
  Pg.auth_uid tx = Some (Auth.id u) ->
  in_sync (Auth.id u)
          (UI.handle Service.supabase (Some u) UI.Activated
                     (Service.mkEnv Service.Delivered tx) w).
Proof.
  intros Hs. unfold UI.handle.
  rewrite fetchTodos_run, run_select_delivered. unfold user_id_of.
  rewrite (get_delivered _ _ Hs). unfold in_sync. simpl.
  apply Permutation_map. symmetry. apply order_by_perm.
Qed.

Section Mirror.
Import Page Service.
Variables (me : uuid) (tx : Pg.Txn).
Hypothesis session : Pg.auth_uid tx = Some me.

Lemma rows_of_after_toggle i c db :
  List.map but_stamp
    (rows_of me (fst (patch tx c i (Some me) db)))
  = List.map (set_flag i c) (List.map but_stamp (rows_of me db)).
Proof.
  rewrite patch_delivered by done. unfold rows_of. simpl.
  rewrite filter_map_comm.
  - rewrite !List.map_map. apply map_ext_in. intros r Hr.
    apply filter_In in Hr as [_ Hr].
    rewrite eq_id_user_id_split, Hr, andb_true_r.
    unfold id_is, set_flag, but_stamp. by destruct (String.eqb (id r) i).
  - intros r. by destruct (eq_id_user_id i me r).
Qed.

Lemma rows_of_after_delete i db :
  rows_of me (fst (delete tx i (Some me) db))
  = List.filter (fun r => other_id i (but_stamp r)) (rows_of me db).
Proof.
  rewrite (delete_delivered _ _ session). unfold rows_of. simpl.
  induction (Pg.public_todos db) as [|r rows IH]; simpl; [done|].
  unfold id_is at 1. destruct (owned_by me r) eqn:Ho; simpl.
  - rewrite andb_true_r. destruct (String.eqb (id r) i); simpl;
      by rewrite ?Ho, IH.
  - rewrite andb_false_r. simpl. by rewrite Ho, IH.
Qed.

Lemma todos_after_delete i (l : list Todo) :
  List.filter (fun t => negb (id_is i t)) l
  = List.filter (fun t => other_id i (but_stamp t)) l.
Proof. reflexivity. Qed.

Lemma mirror_kept email ev w :
  ev = UI.Activated \/ in_sync me w ->
  in_sync me (UI.handle supabase (Some (Auth.mkUser me email)) ev
                        (mkEnv Delivered tx) w).
Proof.
  intros Hsync. destruct ev as [| |todo|todo].
  - by apply (activated_in_sync (Auth.mkUser me email)).
  - destruct Hsync as [|Hsync]; [done|]. unfold UI.handle.
    destruct (truthy (trim (newTodo (view w)))) eqn:Ht;
      [|apply truthy_false in Ht; by rewrite addTodo_rejected].
    rewrite addTodo_run by done. simpl. unfold post.
    destruct (Pg.insert _ _ _) as [db' [r|e]] eqn:Hins; simpl.
    + apply insert_Ok in Hins as (-> & _ & Hown).
      unfold in_sync, rows_of. simpl. rewrite List.filter_app. simpl.
      assert (owned_by me r = true) as ->.
      { apply String.eqb_eq. simpl in Hown. congruence. }
      rewrite List.map_app. simpl.
      etransitivity; [|apply Permutation_cons_append]. by constructor.
    + by apply insert_Err in Hins as ->.
  - destruct Hsync as [|Hsync]; [done|]. unfold UI.handle.
    rewrite toggleTodo_run, run_update_delivered. unfold user_id_of.
    pose proof (rows_of_after_toggle (id todo) (negb (completed todo))
                  (server w)) as Hrows.
    simpl Auth.id. rewrite patch_delivered in * by done. simpl in *.
    unfold in_sync. simpl. rewrite Hrows.
    change (fun todo0 : Todo =>
              if id_is (id todo) todo0
              then with_completed (negb (completed todo)) todo0 else todo0)
      with (flip_local (id todo) (completed todo)).
    rewrite List.map_map.
    erewrite map_ext; [|intros t; apply but_stamp_flip_local].
    rewrite <- (List.map_map but_stamp). by apply Permutation_map.
  - destruct Hsync as [|Hsync]; [done|]. unfold UI.handle.
    rewrite deleteTodo_run, run_delete_delivered. unfold user_id_of.
    pose proof (rows_of_after_delete (id todo) (server w)) as Hrows.
    simpl Auth.id.
    destruct (delete tx (id todo) (Some me) (server w)) as [db' reply] eqn:Hdel.
    rewrite (delete_delivered _ _ session) in Hdel. injection Hdel as <- <-.
    unfold in_sync in *. cbn [view server todos fst] in *.
    rewrite Hrows, todos_after_delete.
    rewrite !map_filter_key. by apply Permutation_filter_bool.
Qed.
End Mirror.

(** Two toggles raised on one render, the second answered after the first:
    the second handler maps the list of the render, so the first flip is
    lost on the page while the table has both. The list is no longer in
    step. *)
Lemma overlapping_toggles_diverge :
  let shown := Page.mkView [Ex.milk; Ex.untitled] [] false false in
  let w0 := Page.mkWorld shown (Pg.mkDb [Ex.alice; Ex.bob] [Ex.milk; Ex.untitled])
                         [] in
  let w1 := UI.settle Service.supabase Ex.alice_user shown
                      (UI.CheckedChange Ex.milk)
                      (Ex.delivered (Ex.as_alice 2000 "x")) w0 in
  let w2 := UI.settle Service.supabase Ex.alice_user shown
                      (UI.CheckedChange Ex.untitled)
                      (Ex.delivered (Ex.as_alice 3000 "y")) w1 in
  in_sync Ex.alice w0 /\ in_sync Ex.alice w1 /\ ~ in_sync Ex.alice w2.
Proof.
  simpl. split; [apply Permutation_refl|]. split; [apply Permutation_refl|].
  unfold in_sync. simpl. intros H.
  apply (Permutation_in (but_stamp Ex.milk)) in H; [|by left].
  destruct H as [H|[H|[]]]; discriminate.
Qed.

Lemma one_at_a_time_in_sync (u : Auth.User) steps (w : Page.World Pg.Db) :
  Forall (fun step => Pg.auth_uid (snd step) = Some (Auth.id u)) steps ->
  in_sync (Auth.id u) w ->
  in_sync (Auth.id u) (one_at_a_time u steps w).
Proof.
  intros Hsteps. revert w.
  induction Hsteps as [|[ev tx] steps Hs _ IH]; intros w Hw; simpl; [done|].
  apply IH. destruct u as [me email]. apply mirror_kept; [done|by right].
Qed.

(** X15. One event at a time, page and table stay in step. Requests are
    delivered with the signed-in user's session, and each is answered
    before the next event is raised (no two requests in flight, so the
    handler's render is the state the reply finds). Then becoming active
    brings the list in step with the table whatever it held, and a submit,
    a toggle and a delete each keep it so; hence after becoming active and
    any number of further events the list holds the rows the user owns in
    the table, each as often as the table has it, equal in every column but
    [updated_at]. With two requests in flight this fails
    ([overlapping_toggles_diverge]). *)
Theorem list_mirrors_table (u : Auth.User) :
  (forall tx ev rendered (w : Page.World Pg.Db),
     Pg.auth_uid tx = Some (Auth.id u) ->
     rendered = Page.view w ->
     ev = UI.Activated \/ in_sync (Auth.id u) w ->
     in_sync (Auth.id u)
             (UI.settle Service.supabase (Some u) rendered ev
                        (Service.mkEnv Service.Delivered tx) w)) /\
  (forall tx0 steps (w : Page.World Pg.Db),
     Pg.auth_uid tx0 = Some (Auth.id u) ->
     Forall (fun step => Pg.auth_uid (snd step) = Some (Auth.id u)) steps ->
     in_sync (Auth.id u) (one_at_a_time u ((UI.Activated, tx0) :: steps) w)).
Proof.
  split.
  - intros tx ev rendered w Hs -> Hsync.
    change (UI.settle Service.supabase (Some u) (Page.view w) ev
                      (Service.mkEnv Service.Delivered tx) w)
      with (UI.handle Service.supabase (Some u) ev
                      (Service.mkEnv Service.Delivered tx) w).
    destruct u as [me email]. by apply mirror_kept.
  - intros tx0 steps w Hs0 Hsteps. simpl.
    apply one_at_a_time_in_sync; [done|]. by apply activated_in_sync.
Qed.

(** Alice opens the page, adds "Buy eggs", ticks "Buy milk" and deletes
    it. *)
Lemma list_mirrors_table_witness :
  in_sync Ex.alice
    (one_at_a_time (Auth.mkUser Ex.alice "alice@example.org")
       [(UI.Activated, Ex.as_alice 2000 "a");
        (UI.Submit, Ex.as_alice 3000 (id Ex.eggs));
        (UI.CheckedChange Ex.milk, Ex.as_alice 4000 "b");
        (UI.ClickDelete Ex.milk, Ex.as_alice 5000 "c")]
       (Page.mkWorld (Page.mkView [] (lit "Buy eggs") true false)
                     Ex.db_milk [])).
Proof.
  apply (proj2 (list_mirrors_table (Auth.mkUser Ex.alice "alice@example.org"))
           (Ex.as_alice 2000 "a")
           [(UI.Submit, Ex.as_alice 3000 (id Ex.eggs));
            (UI.CheckedChange Ex.milk, Ex.as_alice 4000 "b");
            (UI.ClickDelete Ex.milk, Ex.as_alice 5000 "c")]
           (Page.mkWorld (Page.mkView [] (lit "Buy eggs") true false)
                         Ex.db_milk [])).
  - reflexivity.
  - repeat constructor.
Defined.




(* ===================================================================== *)
(** ** What the page can do to the table *)
(* ===================================================================== *)

(** One event runs at most one statement, and it is one of the three the
    page knows. *)
Lemma handle_statement (user : option Auth.User) (ev : UI.Event)
      (env : Service.Env) (w : Page.World Pg.Db) :
  let db := Page.server w in
  let db' := Page.server (UI.handle Service.supabase user ev env w) in
  let tx := Service.txn env in
  db' = db \/
  (exists t u, db' = fst (Pg.insert tx (Service.insert_body t u false) db)) \/
  (exists c i u, db' = fst (Pg.update tx (Service.update_body c)
                                      (Service.eq_id_user_id i u) db)) \/
  (exists i u, db' = fst (Pg.delete tx (Service.eq_id_user_id i u) db)).
Proof.
  destruct ev as [| |todo|todo]; simpl.
  - destruct user as [u|]; [|by left]. rewrite fetchTodos_run. simpl.
    unfold Service.over_network, Service.get.
    left. by destruct (Service.net env).
  - destruct (truthy (trim (Page.newTodo (Page.view w)))) eqn:Ht;
      [|apply truthy_false in Ht; rewrite addTodo_rejected by done; by left].
    rewrite addTodo_run by done. simpl. unfold Service.over_network, Service.post.
    destruct (Service.net env); simpl; try (by left);
      destruct (Pg.insert _ _ _) as [db1 [r|e]] eqn:Hins; simpl;
      right; left; eexists _, _; by rewrite Hins.
  - rewrite toggleTodo_run. simpl. unfold Service.over_network, Service.patch.
    destruct (user_id_of user) as [uid|]; [|left; by destruct (Service.net env)].
    destruct (Service.net env); simpl; try (by left);
      destruct (Pg.update _ _ _ _) as [db1 [n|e]] eqn:Hup; simpl;
      right; right; left; eexists _, _, _; by rewrite Hup.
  - rewrite deleteTodo_run. simpl. unfold Service.over_network, Service.delete.
    destruct (user_id_of user) as [uid|]; [|left; by destruct (Service.net env)].
    destruct (Service.net env); simpl; try (by left);
      right; right; right; by eexists _, _.
Qed.

(** X17. The page cannot reach over. Whatever the event, the network, the
    list the page holds and the [user] it believes in: when the request
    carries the session of [B], the rows of any other user [A] in the table
    are afterwards what they were; when it carries no session, the whole
    table is. *)
Theorem page_never_touches_other_rows (user : option Auth.User) (ev : UI.Event)
        (env : Service.Env) (w : Page.World Pg.Db) :
  let w' := UI.handle Service.supabase user ev env w in
  (forall A B, A <> B -> Pg.auth_uid (Service.txn env) = Some B ->
               rows_of A (Page.server w') = rows_of A (Page.server w)) /\
  (Pg.auth_uid (Service.txn env) = None -> Page.server w' = Page.server w).
Proof.
  simpl. pose proof (handle_statement user ev env w) as Hst. simpl in Hst. split.
  - intros A B HAB HB.
    destruct Hst as [->|[(t & u & ->)|[(c & i & u & ->)|(i & u & ->)]]].
    + done.
    + by eapply insert_keeps_other.
    + by eapply update_keeps_other.
    + by eapply delete_keeps_other.
  - intros Hanon.
    destruct Hst as [->|[(t & u & ->)|[(c & i & u & ->)|(i & u & ->)]]].
    + done.
    + unfold Pg.insert, Pg.policy_insert_check. by rewrite Hanon.
    + unfold Pg.update. rewrite update_rows_out_of_reach;
        [by destruct (Page.server w)|].
      apply List.Forall_forall. intros r _.
      change (Pg.policy_update (Service.txn env) r)
        with (Pg.policy_select (Service.txn env) r).
      by rewrite anonymous_policy.
    + unfold Pg.delete. simpl. rewrite filter_id; [by destruct (Page.server w)|].
      apply List.Forall_forall. intros r _.
      change (Pg.policy_delete (Service.txn env) r)
        with (Pg.policy_select (Service.txn env) r).
      by rewrite anonymous_policy.
Qed.

(** *** Stamps and the clock *)

Section PageStamps.
Import Pg.
Variables (tx : Txn) (t : timestamp).
Hypothesis clock : t <= now tx.

Lemma well_stamped_later db : well_stamped t db -> well_stamped (now tx) db.
Proof.
  unfold well_stamped. intros H. eapply Forall_impl; [exact H|].
  intros r Hr. simpl in *. lia.
Qed.

Lemma page_insert_stamped title u c db :
  well_stamped t db ->
  well_stamped (now tx) (fst (insert tx (Service.insert_body title u c) db)).
Proof.
  intros Hdb. apply well_stamped_later in Hdb.
  destruct (insert _ _ _) as [db' [r|e]] eqn:H; simpl;
    [|by apply insert_Err in H as ->].
  apply insert_Ok in H as (-> & Hrow & _). unfold well_stamped in *. simpl.
  apply Forall_app. split; [done|]. constructor; [|constructor].
  apply not_null_Some in Hrow as (_ & _ & _ & _ & _ & Hca & Hua).
  simpl in Hca, Hua. injection Hca as <-. injection Hua as <-. lia.
Qed.

Lemma page_update_stamped c where_ db :
  well_stamped t db ->
  well_stamped (now tx) (fst (update tx (Service.update_body c) where_ db)).
Proof.
  intros Hdb.
  destruct (update _ _ _ _) as [db' [n|e]] eqn:H; simpl;
    [|apply update_Err in H as ->; by apply well_stamped_later].
  apply update_Ok in H as [_ H]. apply update_rows_Ok in H.
  unfold well_stamped in *.
  induction H as [|old new l l' Hrow _ IH]; [constructor|].
  apply Forall_cons in Hdb as [Hold Hl]. constructor; [|by apply IH].
  destruct Hrow as [[-> _]|(_ & _ & Hrow)]; [simpl in *; lia|].
  apply update_row_Ok in Hrow as (Hn & _ & Hua).
  apply not_null_Some in Hn as (_ & _ & _ & _ & _ & Hca & _).
  simpl in Hca. injection Hca as Hca. simpl in *. lia.
Qed.

Lemma page_delete_stamped where_ db :
  well_stamped t db -> well_stamped (now tx) (fst (delete tx where_ db)).
Proof.
  intros Hdb. apply well_stamped_later in Hdb. unfold well_stamped in *.
  simpl. apply List.Forall_forall. intros r Hr. apply filter_In in Hr as [Hr _].
  rewrite List.Forall_forall in Hdb. by apply Hdb.
Qed.
End PageStamps.

(** X18. Written through the page alone, under a clock that does not run
    backwards, the stamps of the table stay in order. If every row has
    [created_at <= updated_at <= t] and the next request runs at a
    transaction time not before [t], then after the event, whatever it is
    and however it ends, every row has
    [created_at <= updated_at <= ] that transaction time. *)
Theorem page_keeps_stamps (user : option Auth.User) (ev : UI.Event)
        (env : Service.Env) (w : Page.World Pg.Db) (t : timestamp) :
  well_stamped t (Page.server w) ->
  t <= Pg.now (Service.txn env) ->
  well_stamped (Pg.now (Service.txn env))
               (Page.server (UI.handle Service.supabase user ev env w)).
Proof.
  intros Hdb Hclock.
  destruct (handle_statement user ev env w)
    as [->|[(ti & u & ->)|[(c & i & u & ->)|(i & u & ->)]]].
  - by eapply well_stamped_later.
  - by eapply page_insert_stamped.
  - by eapply page_update_stamped.
  - by eapply page_delete_stamped.
Qed.

Lemma page_keeps_stamps_witness :
  well_stamped 2000
    (Page.server (UI.handle Service.supabase Ex.alice_user
                    (UI.CheckedChange Ex.milk)
                    (Ex.delivered (Ex.as_alice 2000 "x"))
                    (Page.mkWorld (Page.mkView [Ex.milk] [] false false)
                                  Ex.db_milk []))).
Proof.
  apply (page_keeps_stamps Ex.alice_user (UI.CheckedChange Ex.milk)
           (Ex.delivered (Ex.as_alice 2000 "x"))
           (Page.mkWorld (Page.mkView [Ex.milk] [] false false) Ex.db_milk [])
           1000).
  - constructor; [|constructor]. simpl. lia.
  - simpl. lia.
Defined.

(** *** Newest first *)

Lemma newest_first_map (f : Todo -> Todo) (l : list Todo) :
  (forall x, created_at (f x) = created_at x) ->
  newest_first l -> newest_first (List.map f l).
Proof.
  intros Hf. unfold newest_first. induction 1 as [|x l _ IH Hx]; simpl;
    constructor; [done|].
  apply List.Forall_forall. intros y Hy. apply in_map_iff in Hy as (z & <- & Hz).
  rewrite !Hf. rewrite List.Forall_forall in Hx. by apply Hx.
Qed.

Lemma newest_first_filter (p : Todo -> bool) (l : list Todo) :
  newest_first l -> newest_first (List.filter p l).
Proof.
  unfold newest_first. induction 1 as [|x l _ IH Hx]; simpl; [constructor|].
  destruct (p x); [|done]. constructor; [done|].
  apply List.Forall_forall. intros y Hy. apply filter_In in Hy as [Hy _].
  rewrite List.Forall_forall in Hx. by apply Hx.
Qed.

Lemma flip_local_created_at i c t :
  created_at (flip_local i c t) = created_at t.
Proof. unfold flip_local. by destruct (Page.id_is i t). Qed.

(** An item of a list in step is no younger than the stamps of the table
    allow. *)
Lemma in_sync_created_at me (w : Page.World Pg.Db) t x :
  in_sync me w -> well_stamped t (Page.server w) ->
  In x (Page.todos (Page.view w)) -> created_at x <= t.
Proof.
  intros Hsync Hst Hx. apply (in_map but_stamp) in Hx.
  apply (Permutation_in _ Hsync) in Hx.
  apply in_map_iff in Hx as (r & Hk & Hr). apply filter_In in Hr as [Hr _].
  unfold well_stamped in Hst. rewrite List.Forall_forall in Hst.
  apply Hst in Hr. assert (created_at r = created_at x) as <-
    by (unfold but_stamp in Hk; congruence).
  lia.
Qed.

(** X19. The list stays newest first. Requests are delivered with the
    signed-in user's session; the list is in step with the table, the
    stamps of the table are in order up to [t], and the clock is not behind
    [t]. Then an event that finds the list newest first leaves it newest
    first: in particular the row a submit puts in front is no older than
    any item behind it. *)
Theorem list_stays_newest_first (u : Auth.User) (tx : Pg.Txn) (ev : UI.Event)
        (w : Page.World Pg.Db) (t : timestamp) :
  Pg.auth_uid tx = Some (Auth.id u) ->
  in_sync (Auth.id u) w ->
  well_stamped t (Page.server w) ->
  t <= Pg.now tx ->
  newest_first (Page.todos (Page.view w)) ->
  newest_first (Page.todos (Page.view
    (UI.handle Service.supabase (Some u) ev
               (Service.mkEnv Service.Delivered tx) w))).
Proof.
  intros Hs Hsync Hst Hclock Hsorted.
  destruct ev as [| |todo|todo]; unfold UI.handle.
  - rewrite fetchTodos_run, run_select_delivered. unfold user_id_of.
    rewrite (get_delivered _ _ Hs). simpl. apply order_by_sorted.
  - destruct (truthy (trim (Page.newTodo (Page.view w)))) eqn:Ht;
      [|apply truthy_false in Ht; by rewrite addTodo_rejected].
    rewrite addTodo_run by done.
    destruct (Page.run_insert _ _ _ _ _ _) as [db1 [data|e|]] eqn:Hrun;
      simpl; try done.
    apply run_insert_fulfilled, insert_Ok in Hrun as (_ & Hrow & _).
    apply not_null_Some in Hrow as (_ & _ & _ & _ & _ & Hca & _).
    simpl in Hca. injection Hca as Hca.
    constructor; [done|]. apply List.Forall_forall. intros x Hx.
    pose proof (in_sync_created_at _ _ _ _ Hsync Hst Hx). lia.
  - rewrite toggleTodo_run.
    destruct (Page.run_update _ _ _ _ _ _) as [db1 [data|e|]]; simpl; try done.
    apply (newest_first_map (flip_local (id todo) (completed todo)));
      [apply flip_local_created_at | done].
  - rewrite deleteTodo_run.
    destruct (Page.run_delete _ _ _ _ _) as [db1 [data|e|]]; simpl; try done.
    by apply newest_first_filter.
Qed.

Lemma list_stays_newest_first_witness :
  newest_first (Page.todos (Page.view
    (UI.handle Service.supabase Ex.alice_user UI.Submit
               (Service.mkEnv Service.Delivered
                              (Ex.as_alice 2000 (id Ex.postdated)))
               (Page.mkWorld (Page.mkView [Ex.milk] (lit "Buy milk") false false)
                             Ex.db_milk [])))).
Proof.
  apply (list_stays_newest_first (Auth.mkUser Ex.alice "alice@example.org")
           (Ex.as_alice 2000 (id Ex.postdated)) UI.Submit
           (Page.mkWorld (Page.mkView [Ex.milk] (lit "Buy milk") false false)
                         Ex.db_milk [])
           1000).
  - reflexivity.
  - unfold in_sync. simpl. apply Permutation_refl.
  - constructor; [|constructor]. simpl. lia.
  - simpl. lia.
  - repeat constructor.
Defined.

(** *** When a submit sends *)

(** X20. Whatever the service: a submit sends an insert exactly when the
    input has a character that is not white space. If every character is
    white space (or there is none) the only effects are the
    [preventDefault] and the "Please enter a todo title" toast; otherwise
    the [preventDefault] is followed by one insert of the trimmed input
    with [completed] false for the current user, and then by what reports
    its outcome. *)
Theorem submit_sends_iff_not_blank {Env Srv : Type}
        (supabase : Page.Supabase Env Srv) (user : option Auth.User)
        (env : Env) (w : Page.World Srv) :
  let input := Page.newTodo (Page.view w) in
  let w' := UI.handle supabase user UI.Submit env w in
  (forallb isWhiteSpace input = true ->
   Page.effects w' =
     Page.effects w ++ [Page.PreventDefault;
                        Page.Toast "Error" "Please enter a todo title"
                                   Page.destructive]) /\
  (forallb isWhiteSpace input = false ->
   exists outcome,
     Page.effects w' =
       Page.effects w ++
         [Page.PreventDefault;
          Page.Sent (Page.InsertSingle (trim input) (user_id_of user) false)]
         ++ outcome /\
     sent_count outcome = 0%nat).
Proof.
  simpl. split.
  - intros Hblank. apply trim_nil_iff in Hblank.
    rewrite addTodo_rejected by done. simpl. by rewrite <- app_assoc.
  - intros Hink.
    assert (truthy (trim (Page.newTodo (Page.view w))) = true) as Ht.
    { apply truthy_true. intros Hnil. apply trim_nil_iff in Hnil. congruence. }
    rewrite addTodo_run by done.
    destruct (Page.run_insert _ _ _ _ _ _) as [s' [data|e|]]; simpl;
      rewrite <- ?app_assoc; simpl; eexists; (split; [reflexivity|done]).
Qed.

Lemma submit_sends_iff_not_blank_witness :
  Page.effects
    (UI.handle Service.supabase Ex.alice_user UI.Submit
               (Ex.delivered (Ex.as_alice 2000 "x"))
               (Page.mkWorld (Page.mkView [] [32; 9; 0x3000]%N false false)
                             Ex.db0 []))
  = [] ++ [Page.PreventDefault;
           Page.Toast "Error" "Please enter a todo title" Page.destructive].
Proof.
  apply (submit_sends_iff_not_blank Service.supabase Ex.alice_user
           (Ex.delivered (Ex.as_alice 2000 "x"))
           (Page.mkWorld (Page.mkView [] [32; 9; 0x3000]%N false false)
                         Ex.db0 [])).
  reflexivity.
Defined.
